(** * Chosung challenge: the quiz session state machine of [src/index.jsx]

    The React component [App] is embedded as a record of its [useState]
    cells together with the environment its handlers act on (pending
    [setTimeout] callbacks and the documents written to the ranking
    collection).  Every handler is a function of two things, as in React:
    the render it was created in (the values its closure reads) and the
    world its setters write to.  The events of a session and of the
    application say which closure runs when: a handler or the countdown
    effect of the render just committed, a callback of an earlier render
    whose delay has passed, the answer of the store to the snapshot
    subscription or to the profile load. *)

From Stdlib Require Import String Ascii.
From Stdlib Require Import ZArith NArith List Bool Lia.
From Stdlib Require Import Permutation Sorted.
From Stdlib Require DecimalString.
Import ListNotations.
Open Scope Z_scope.

(** ** JavaScript strings: sequences of UTF-16 code units *)

Definition jsstring := list N.

Definition jsstring_eq_dec : forall a b : jsstring, {a = b} + {a <> b} :=
  list_eq_dec N.eq_dec.

(** [a === b] on strings. *)
Definition str_eqb (a b : jsstring) : bool :=
  if jsstring_eq_dec a b then true else false.

(** Source literals are written as in the source file and decoded from the
    UTF-8 bytes of the literal to code units. *)
Fixpoint utf16_of_utf8 (bs : list N) : jsstring :=
  match bs with
  | [] => []
  | b0 :: r0 =>
    if (b0 <? 128)%N then b0 :: utf16_of_utf8 r0 else
    match r0 with
    | [] => []
    | b1 :: r1 =>
      if (b0 <? 224)%N then ((b0 mod 32) * 64 + b1 mod 64)%N :: utf16_of_utf8 r1 else
      match r1 with
      | [] => []
      | b2 :: r2 =>
        if (b0 <? 240)%N
        then ((b0 mod 16) * 4096 + (b1 mod 64) * 64 + b2 mod 64)%N :: utf16_of_utf8 r2
        else
        match r2 with
        | [] => []
        | b3 :: r3 =>
          let cp := ((b0 mod 8) * 262144 + (b1 mod 64) * 4096
                     + (b2 mod 64) * 64 + b3 mod 64)%N in
          let v := (cp - 65536)%N in
          (55296 + v / 1024)%N :: (56320 + v mod 1024)%N :: utf16_of_utf8 r3
        end
      end
    end
  end.

Definition js (s : string) : jsstring :=
  utf16_of_utf8 (map N_of_ascii (list_ascii_of_string s)).

(** [String.prototype.trim]: strips WhiteSpace and LineTerminator code
    units (ECMAScript 12.2 and 12.3) from both ends. *)
Definition isWhiteSpace (c : N) : bool :=
  existsb (N.eqb c)
    [9; 10; 11; 12; 13; 32; 160; 5760; 8232; 8233; 8239; 8287; 12288; 65279]%N
  || ((8192 <=? c) && (c <=? 8202))%N.

Fixpoint trimStart (s : jsstring) : jsstring :=
  match s with
  | [] => []
  | c :: r => if isWhiteSpace c then trimStart r else s
  end.

Definition trimEnd (s : jsstring) : jsstring := rev (trimStart (rev s)).

Definition trim (s : jsstring) : jsstring := trimEnd (trimStart s).

(** Truthiness of a string: only the empty string is falsy. *)
Definition truthy (s : jsstring) : bool :=
  match s with [] => false | _ :: _ => true end.

(** Number-to-string conversion of an integer, as in a template literal. *)
Definition string_of_number (z : Z) : jsstring :=
  map N_of_ascii (list_ascii_of_string (DecimalString.NilZero.string_of_int (Z.to_int z))).

(** [arr[i]]: [None] stands for [undefined]. *)
Definition array_get {A} (arr : list A) (i : Z) : option A :=
  if i <? 0 then None else nth_error arr (Z.to_nat i).

(** [arr.slice(0, n)]. *)
Definition slice0 {A} (n : Z) (arr : list A) : list A := firstn (Z.to_nat n) arr.

(** ** Problem data and constants *)

Record Question : Type := mkQuestion {
  chosung : jsstring;
  category : jsstring;
  answer : jsstring;
  difficulty : Z
}.

Definition CHOSUNG_QUESTIONS : list Question :=
  [ mkQuestion (js "ㅇㄴㅎㅅㅇ") (js "인사말") (js "안녕하세요") 1;
    mkQuestion (js "ㄱㅈ") (js "간식") (js "과자") 2;
    mkQuestion (js "ㅁㄱ") (js "동물") (js "몽구") 2;
    mkQuestion (js "ㅅㅁㅌㅍ") (js "기술") (js "스마트폰") 3;
    mkQuestion (js "ㅈㅈㄷ") (js "도시") (js "제주도") 3;
    mkQuestion (js "ㅅㅂ") (js "과일") (js "수박") 1;
    mkQuestion (js "ㄴㄱ") (js "지리") (js "남극") 2;
    mkQuestion (js "ㅇㅍㅌ") (js "건축") (js "아파트") 1;
    mkQuestion (js "ㅍㅇㄴ") (js "악기") (js "피아노") 3;
    mkQuestion (js "ㄷㅈㅉㄱ") (js "요리") (js "된장찌개") 2 ].

Definition TIMER_START : Z := 10.
Definition MAX_QUESTIONS : Z := 5.

(** ** Component state *)

Inductive Phase : Type := PhaseStart | PhasePlaying | PhaseResult | PhaseRanking.

Definition Phase_eqb (a b : Phase) : bool :=
  match a, b with
  | PhaseStart, PhaseStart | PhasePlaying, PhasePlaying
  | PhaseResult, PhaseResult | PhaseRanking, PhaseRanking => true
  | _, _ => false
  end.

Record Feedback : Type := mkFeedback { text : jsstring; type : jsstring }.

Definition noFeedback : Feedback := mkFeedback (js "") (js "").

(** A document of the ranking collection, and a row of the ranking table. *)
Module Doc.
Record t : Type := mk { userId : jsstring; nickname : jsstring; highScore : Z }.
End Doc.

Module Entry.
Record t : Type :=
  mk { rank : Z; userId : jsstring; nickname : jsstring; highScore : Z }.
End Entry.

Module MyRank.
Record t : Type := mk { rank : Z; score : Z }.
End MyRank.

Definition RankingEntry := Entry.t.
Definition MyRank := MyRank.t.

Inductive Firestore : Type := firestore.

Record State : Type := mkState {
  phase : Phase;
  score : Z;
  highScore : Z;
  timeLeft : Z;
  currentQuestionIndex : Z;
  currentQuestion : option (list Question);
  answerInput : jsstring;
  feedback : Feedback;
  isNewHighScore : bool;
  showAnswer : bool;
  correctAnswerText : jsstring;
  lastWrongInput : jsstring;
  rankingData : list RankingEntry;
  myRank : option MyRank;
  db : option Firestore;
  userId : option jsstring;
  isAuthReady : bool
}.

Definition setPhase (v : Phase) (s : State) : State :=
  {| phase := v; score := score s; highScore := highScore s;
     timeLeft := timeLeft s; currentQuestionIndex := currentQuestionIndex s;
     currentQuestion := currentQuestion s; answerInput := answerInput s;
     feedback := feedback s; isNewHighScore := isNewHighScore s;
     showAnswer := showAnswer s; correctAnswerText := correctAnswerText s;
     lastWrongInput := lastWrongInput s; rankingData := rankingData s;
     myRank := myRank s; db := db s; userId := userId s;
     isAuthReady := isAuthReady s |}.

Definition setScore (v : Z) (s : State) : State :=
  {| phase := phase s; score := v; highScore := highScore s;
     timeLeft := timeLeft s; currentQuestionIndex := currentQuestionIndex s;
     currentQuestion := currentQuestion s; answerInput := answerInput s;
     feedback := feedback s; isNewHighScore := isNewHighScore s;
     showAnswer := showAnswer s; correctAnswerText := correctAnswerText s;
     lastWrongInput := lastWrongInput s; rankingData := rankingData s;
     myRank := myRank s; db := db s; userId := userId s;
     isAuthReady := isAuthReady s |}.

Definition setHighScore (v : Z) (s : State) : State :=
  {| phase := phase s; score := score s; highScore := v;
     timeLeft := timeLeft s; currentQuestionIndex := currentQuestionIndex s;
     currentQuestion := currentQuestion s; answerInput := answerInput s;
     feedback := feedback s; isNewHighScore := isNewHighScore s;
     showAnswer := showAnswer s; correctAnswerText := correctAnswerText s;
     lastWrongInput := lastWrongInput s; rankingData := rankingData s;
     myRank := myRank s; db := db s; userId := userId s;
     isAuthReady := isAuthReady s |}.

Definition setTimeLeft (v : Z) (s : State) : State :=
  {| phase := phase s; score := score s; highScore := highScore s;
     timeLeft := v; currentQuestionIndex := currentQuestionIndex s;
     currentQuestion := currentQuestion s; answerInput := answerInput s;
     feedback := feedback s; isNewHighScore := isNewHighScore s;
     showAnswer := showAnswer s; correctAnswerText := correctAnswerText s;
     lastWrongInput := lastWrongInput s; rankingData := rankingData s;
     myRank := myRank s; db := db s; userId := userId s;
     isAuthReady := isAuthReady s |}.

Definition setCurrentQuestionIndex (v : Z) (s : State) : State :=
  {| phase := phase s; score := score s; highScore := highScore s;
     timeLeft := timeLeft s; currentQuestionIndex := v;
     currentQuestion := currentQuestion s; answerInput := answerInput s;
     feedback := feedback s; isNewHighScore := isNewHighScore s;
     showAnswer := showAnswer s; correctAnswerText := correctAnswerText s;
     lastWrongInput := lastWrongInput s; rankingData := rankingData s;
     myRank := myRank s; db := db s; userId := userId s;
     isAuthReady := isAuthReady s |}.

Definition setCurrentQuestion (v : option (list Question)) (s : State) : State :=
  {| phase := phase s; score := score s; highScore := highScore s;
     timeLeft := timeLeft s; currentQuestionIndex := currentQuestionIndex s;
     currentQuestion := v; answerInput := answerInput s;
     feedback := feedback s; isNewHighScore := isNewHighScore s;
     showAnswer := showAnswer s; correctAnswerText := correctAnswerText s;
     lastWrongInput := lastWrongInput s; rankingData := rankingData s;
     myRank := myRank s; db := db s; userId := userId s;
     isAuthReady := isAuthReady s |}.

Definition setAnswerInput (v : jsstring) (s : State) : State :=
  {| phase := phase s; score := score s; highScore := highScore s;
     timeLeft := timeLeft s; currentQuestionIndex := currentQuestionIndex s;
     currentQuestion := currentQuestion s; answerInput := v;
     feedback := feedback s; isNewHighScore := isNewHighScore s;
     showAnswer := showAnswer s; correctAnswerText := correctAnswerText s;
     lastWrongInput := lastWrongInput s; rankingData := rankingData s;
     myRank := myRank s; db := db s; userId := userId s;
     isAuthReady := isAuthReady s |}.

Definition setFeedback (v : Feedback) (s : State) : State :=
  {| phase := phase s; score := score s; highScore := highScore s;
     timeLeft := timeLeft s; currentQuestionIndex := currentQuestionIndex s;
     currentQuestion := currentQuestion s; answerInput := answerInput s;
     feedback := v; isNewHighScore := isNewHighScore s;
     showAnswer := showAnswer s; correctAnswerText := correctAnswerText s;
     lastWrongInput := lastWrongInput s; rankingData := rankingData s;
     myRank := myRank s; db := db s; userId := userId s;
     isAuthReady := isAuthReady s |}.

Definition setIsNewHighScore (v : bool) (s : State) : State :=
  {| phase := phase s; score := score s; highScore := highScore s;
     timeLeft := timeLeft s; currentQuestionIndex := currentQuestionIndex s;
     currentQuestion := currentQuestion s; answerInput := answerInput s;
     feedback := feedback s; isNewHighScore := v; showAnswer := showAnswer s;
     correctAnswerText := correctAnswerText s;
     lastWrongInput := lastWrongInput s; rankingData := rankingData s;
     myRank := myRank s; db := db s; userId := userId s;
     isAuthReady := isAuthReady s |}.

Definition setShowAnswer (v : bool) (s : State) : State :=
  {| phase := phase s; score := score s; highScore := highScore s;
     timeLeft := timeLeft s; currentQuestionIndex := currentQuestionIndex s;
     currentQuestion := currentQuestion s; answerInput := answerInput s;
     feedback := feedback s; isNewHighScore := isNewHighScore s;
     showAnswer := v; correctAnswerText := correctAnswerText s;
     lastWrongInput := lastWrongInput s; rankingData := rankingData s;
     myRank := myRank s; db := db s; userId := userId s;
     isAuthReady := isAuthReady s |}.

Definition setCorrectAnswerText (v : jsstring) (s : State) : State :=
  {| phase := phase s; score := score s; highScore := highScore s;
     timeLeft := timeLeft s; currentQuestionIndex := currentQuestionIndex s;
     currentQuestion := currentQuestion s; answerInput := answerInput s;
     feedback := feedback s; isNewHighScore := isNewHighScore s;
     showAnswer := showAnswer s; correctAnswerText := v;
     lastWrongInput := lastWrongInput s; rankingData := rankingData s;
     myRank := myRank s; db := db s; userId := userId s;
     isAuthReady := isAuthReady s |}.

Definition setLastWrongInput (v : jsstring) (s : State) : State :=
  {| phase := phase s; score := score s; highScore := highScore s;
     timeLeft := timeLeft s; currentQuestionIndex := currentQuestionIndex s;
     currentQuestion := currentQuestion s; answerInput := answerInput s;
     feedback := feedback s; isNewHighScore := isNewHighScore s;
     showAnswer := showAnswer s; correctAnswerText := correctAnswerText s;
     lastWrongInput := v; rankingData := rankingData s; myRank := myRank s;
     db := db s; userId := userId s; isAuthReady := isAuthReady s |}.

Definition setRankingData (v : list RankingEntry) (s : State) : State :=
  {| phase := phase s; score := score s; highScore := highScore s;
     timeLeft := timeLeft s; currentQuestionIndex := currentQuestionIndex s;
     currentQuestion := currentQuestion s; answerInput := answerInput s;
     feedback := feedback s; isNewHighScore := isNewHighScore s;
     showAnswer := showAnswer s; correctAnswerText := correctAnswerText s;
     lastWrongInput := lastWrongInput s; rankingData := v;
     myRank := myRank s; db := db s; userId := userId s;
     isAuthReady := isAuthReady s |}.

Definition setMyRank (v : option MyRank) (s : State) : State :=
  {| phase := phase s; score := score s; highScore := highScore s;
     timeLeft := timeLeft s; currentQuestionIndex := currentQuestionIndex s;
     currentQuestion := currentQuestion s; answerInput := answerInput s;
     feedback := feedback s; isNewHighScore := isNewHighScore s;
     showAnswer := showAnswer s; correctAnswerText := correctAnswerText s;
     lastWrongInput := lastWrongInput s; rankingData := rankingData s;
     myRank := v; db := db s; userId := userId s;
     isAuthReady := isAuthReady s |}.

Definition setDb (v : option Firestore) (s : State) : State :=
  {| phase := phase s; score := score s; highScore := highScore s;
     timeLeft := timeLeft s; currentQuestionIndex := currentQuestionIndex s;
     currentQuestion := currentQuestion s; answerInput := answerInput s;
     feedback := feedback s; isNewHighScore := isNewHighScore s;
     showAnswer := showAnswer s; correctAnswerText := correctAnswerText s;
     lastWrongInput := lastWrongInput s; rankingData := rankingData s;
     myRank := myRank s; db := v; userId := userId s;
     isAuthReady := isAuthReady s |}.

Definition setUserId (v : option jsstring) (s : State) : State :=
  {| phase := phase s; score := score s; highScore := highScore s;
     timeLeft := timeLeft s; currentQuestionIndex := currentQuestionIndex s;
     currentQuestion := currentQuestion s; answerInput := answerInput s;
     feedback := feedback s; isNewHighScore := isNewHighScore s;
     showAnswer := showAnswer s; correctAnswerText := correctAnswerText s;
     lastWrongInput := lastWrongInput s; rankingData := rankingData s;
     myRank := myRank s; db := db s; userId := v;
     isAuthReady := isAuthReady s |}.

Definition setIsAuthReady (v : bool) (s : State) : State :=
  {| phase := phase s; score := score s; highScore := highScore s;
     timeLeft := timeLeft s; currentQuestionIndex := currentQuestionIndex s;
     currentQuestion := currentQuestion s; answerInput := answerInput s;
     feedback := feedback s; isNewHighScore := isNewHighScore s;
     showAnswer := showAnswer s; correctAnswerText := correctAnswerText s;
     lastWrongInput := lastWrongInput s; rankingData := rankingData s;
     myRank := myRank s; db := db s; userId := userId s; isAuthReady := v |}.

(** Functional updates, [setX(prev => f(prev))]. *)
Definition modScore (f : Z -> Z) (s : State) : State := setScore (f (score s)) s.
Definition modTimeLeft (f : Z -> Z) (s : State) : State := setTimeLeft (f (timeLeft s)) s.

(** The cells as [useState] initialises them. *)
Definition initialState : State :=
  {| phase := PhaseStart; score := 0; highScore := 0; timeLeft := TIMER_START;
     currentQuestionIndex := 0; currentQuestion := None; answerInput := js "";
     feedback := noFeedback; isNewHighScore := false; showAnswer := false;
     correctAnswerText := js ""; lastWrongInput := js ""; rankingData := [];
     myRank := None; db := None; userId := None; isAuthReady := false |}.

(** ** Environment: pending timeouts and writes to the ranking collection *)

(** The arrow functions handed to [setTimeout].  The one after a correct
    answer clears the feedback and advances; the one after a wrong answer
    and the one after a timeout have the same body: clear the feedback and
    the reveal, then advance.  Each closes over the render [r] it was
    created in. *)
Inductive Callback : Type :=
| AfterCorrect (r : State)
| AfterReveal (r : State).

Record Timeout : Type := mkTimeout { callback : Callback; delay : Z }.

(** [updateDoc(doc(db, getPublicRankingPath(docId)), { highScore, ... })]. *)
Record DocUpdate : Type := mkDocUpdate { docId : jsstring; newHighScore : Z }.

Record World : Type := mkWorld {
  state : State;
  timeouts : list Timeout;
  updates : list DocUpdate
}.

Definition upd (f : State -> State) (w : World) : World :=
  {| state := f (state w); timeouts := timeouts w; updates := updates w |}.

Definition setTimeout (cb : Callback) (ms : Z) (w : World) : World :=
  {| state := state w; timeouts := timeouts w ++ [mkTimeout cb ms];
     updates := updates w |}.

Definition updateDoc (id : jsstring) (hs : Z) (w : World) : World :=
  {| state := state w; timeouts := timeouts w;
     updates := updates w ++ [mkDocUpdate id hs] |}.

Definition initialWorld : World := mkWorld initialState [] [].

(** A handler either returns or stops at a [TypeError]; both carry the
    world as the setters called so far have left it. *)
Inductive Completion : Type :=
| Normal (w : World)
| Throw (w : World).

Definition world_of (c : Completion) : World :=
  match c with Normal w | Throw w => w end.

Notation "w '|>' f" := (f w) (at level 45, left associativity, only parsing).

(** ** Handlers *)

(** [db && userId]. *)
Definition storeAvailable (r : State) : option jsstring :=
  match db r, userId r with
  | Some _, Some uid => if truthy uid then Some uid else None
  | _, _ => None
  end.

(** [handleGameEnd] (lines 184-204).  The interval handle is not part of the
    world: whether the countdown runs is a function of the state, see
    [timerRunning]. *)
Definition handleGameEnd (r : State) (w : World) : World :=
  let w := w |> upd (setPhase PhaseResult) in
  if score r >? highScore r then
    let w := w |> upd (setHighScore (score r)) |> upd (setIsNewHighScore true) in
    match storeAvailable r with
    | Some uid => w |> updateDoc uid (score r)
    | None => w
    end
  else w.

(** [handleNextQuestion] (lines 208-217). *)
Definition handleNextQuestion (r : State) (w : World) : World :=
  let nextIndex := currentQuestionIndex r + 1 in
  if nextIndex <? MAX_QUESTIONS then
    w |> upd (setCurrentQuestionIndex nextIndex)
      |> upd (setTimeLeft TIMER_START)
      |> upd (setAnswerInput (js ""))
  else handleGameEnd r w.

(** [handleTimeOut] (lines 221-243). *)
Definition handleTimeOut (r : State) (w : World) : Completion :=
  match currentQuestion r with
  | None => Normal w
  | Some questions =>
    let qData := array_get questions (currentQuestionIndex r) in
    let w := w |> upd (setLastWrongInput (js "시간 초과")) in
    match qData with
    | None => Throw w
    | Some qData =>
      Normal (w |> upd (setCorrectAnswerText (answer qData))
                |> upd (setShowAnswer true)
                |> upd (setFeedback (mkFeedback (js "시간 초과!") (js "wrong")))
                |> setTimeout (AfterReveal r) 2000)
    end
  end.

(** The bodies of the [setTimeout] callbacks (lines 235-241, 306-309, 321-327). *)
Definition runCallback (cb : Callback) (w : World) : World :=
  match cb with
  | AfterCorrect r =>
    w |> upd (setFeedback noFeedback) |> handleNextQuestion r
  | AfterReveal r =>
    w |> upd (setFeedback noFeedback)
      |> upd (setShowAnswer false)
      |> upd (setCorrectAnswerText (js ""))
      |> upd (setLastWrongInput (js ""))
      |> handleNextQuestion r
  end.

(** The countdown effect (lines 246-258): the interval is armed exactly in
    the renders where [timerRunning] holds, and [handleTimeOut] is called in
    the renders where [timerExpired] holds. *)
Definition timerRunning (s : State) : bool :=
  Phase_eqb (phase s) PhasePlaying && (timeLeft s >? 0)
  && negb (truthy (text (feedback s))).

Definition timerExpired (s : State) : bool :=
  Phase_eqb (phase s) PhasePlaying && (timeLeft s =? 0)
  && negb (truthy (text (feedback s))).

(** [showRanking] (line 332). *)
Definition showRanking (w : World) : World := w |> upd (setPhase PhaseRanking).

Section Engine.

(** [String.prototype.toLowerCase] is the engine's: the handlers are
    written over any such function. *)
Variable toLowerCase : jsstring -> jsstring.

(** [arr.sort(() => Math.random() - 0.5)] is the engine's too.  The
    comparator ignores its arguments, so the result is a function of the
    array and of the answers the comparator gives, call after call: one
    random bit each, negative or not with equal chance. *)
Variable sortRandom : list bool -> list Question -> list Question.

(** [startGame] (lines 261-280). *)
Definition startGame (bits : list bool) (r : State) (w : World) : World :=
  if negb (isAuthReady r) then w else
  let shuffledQuestions := sortRandom bits CHOSUNG_QUESTIONS in
  let gameQuestions := slice0 MAX_QUESTIONS shuffledQuestions in
  w |> upd (setCurrentQuestion (Some gameQuestions))
    |> upd (setCurrentQuestionIndex 0)
    |> upd (setScore 0)
    |> upd (setAnswerInput (js ""))
    |> upd (setTimeLeft TIMER_START)
    |> upd (setFeedback noFeedback)
    |> upd (setShowAnswer false)
    |> upd (setCorrectAnswerText (js ""))
    |> upd (setLastWrongInput (js ""))
    |> upd (setPhase PhasePlaying)
    |> upd (setIsNewHighScore false).

(** [handleSubmitAnswer] (lines 284-329).  The three disjuncts of its guard
    are reads of the closure; the round is matched first to name it. *)
Definition handleSubmitAnswer (r : State) (w : World) : Completion :=
  match currentQuestion r with
  | None => Normal w
  | Some questions =>
    if negb (Phase_eqb (phase r) PhasePlaying) || truthy (text (feedback r))
    then Normal w
    else
    let submittedAnswer := toLowerCase (trim (answerInput r)) in
    let wrongInputForDisplay := trim (answerInput r) in
    match array_get questions (currentQuestionIndex r) with
    | None => Throw w
    | Some qData =>
      let correctAnswer := toLowerCase (trim (answer qData)) in
      let w := w |> upd (setAnswerInput (js "")) in
      if str_eqb submittedAnswer correctAnswer then
        let bonus := timeLeft r * 1 in
        let points := 10 + bonus in
        Normal (w |> upd (modScore (fun prev => prev + points))
                  |> upd (setFeedback
                            (mkFeedback
                               (js "정답! (+" ++ string_of_number points ++ js "점)")
                               (js "correct")))
                  |> setTimeout (AfterCorrect r) 500)
      else
        Normal (w |> upd (setLastWrongInput wrongInputForDisplay)
                  |> upd (setCorrectAnswerText (answer qData))
                  |> upd (setShowAnswer true)
                  |> upd (setFeedback (mkFeedback (js "오답!") (js "wrong")))
                  |> setTimeout (AfterReveal r) 2000)
    end
  end.

End Engine.

(** ** Leaderboard *)

(** [Array.prototype.sort] with a consistent comparator is a stable sort;
    insertion keeps an element in front of the later ones it does not
    exceed. *)
Section ArraySort.

Context {A : Type} (compareFn : A -> A -> Z).

Fixpoint sortInsert (x : A) (l : list A) : list A :=
  match l with
  | [] => [x]
  | y :: l' => if compareFn x y <=? 0 then x :: l else y :: sortInsert x l'
  end.

Definition array_sort (l : list A) : list A := fold_right sortInsert [] l.

End ArraySort.

(** [b.highScore - a.highScore]. *)
Definition byHighScoreDesc (a b : Entry.t) : Z := Entry.highScore b - Entry.highScore a.

(** The [forEach] of lines 147-159: [{ rank, ...data }] for each document.
    The [myIndex] it also assigns is never read. *)
Fixpoint pushRankings (index : Z) (docs : list Doc.t) : list Entry.t :=
  match docs with
  | [] => []
  | data :: rest =>
    Entry.mk (index + 1) (Doc.userId data) (Doc.nickname data) (Doc.highScore data)
    :: pushRankings (index + 1) rest
  end.

(** [data.userId === userId], with the [userId] of the closure. *)
Definition isMe (r : State) (uid : jsstring) : bool :=
  match userId r with
  | Some u => str_eqb uid u
  | None => false
  end.

(** The [map] of lines 167-172, with its calls of [setMyRank]. *)
Fixpoint rerank (r : State) (index : Z) (l : list Entry.t) (w : World)
  : list Entry.t * World :=
  match l with
  | [] => ([], w)
  | data :: rest =>
    let w :=
      if isMe r (Entry.userId data)
      then w |> upd (setMyRank (Some (MyRank.mk (index + 1) (Entry.highScore data))))
      else w in
    let '(out, w) := rerank r (index + 1) rest w in
    (Entry.mk (index + 1) (Entry.userId data) (Entry.nickname data)
              (Entry.highScore data) :: out, w)
  end.

(** The [onSnapshot] callback (lines 143-175). *)
Definition onRankingSnapshot (r : State) (docs : list Doc.t) (w : World) : World :=
  let currentRankings := pushRankings 0 docs in
  let currentRankings := array_sort byHighScoreDesc currentRankings in
  let '(finalRankings, w) := rerank r 0 currentRankings w in
  w |> upd (setRankingData finalRankings).

(** ** Events of a play session *)

(** [SubmitBeforeEffect] is a submission that arrives when a render has
    been committed and its countdown effect has not run yet.  The submit
    handler and the effect are closures of that same render: the handler
    runs, and the effect runs after it and before the next render. *)
Inductive Event : Type :=
| Input (v : jsstring)  (* onChange of the text field *)
| Submit                (* onSubmit of the form *)
| Tick                  (* one tick of the interval *)
| TimeUp                (* the effect's call of handleTimeOut *)
| Fire (n : nat)        (* the n-th pending timeout runs *)
| SubmitBeforeEffect.   (* onSubmit, then the countdown effect of the same render *)

Fixpoint dropNth {A} (n : nat) (l : list A) : list A :=
  match n, l with
  | _, [] => []
  | O, _ :: l' => l'
  | S n', x :: l' => x :: dropNth n' l'
  end.

Definition fire (n : nat) (w : World) : World :=
  match nth_error (timeouts w) n with
  | None => w
  | Some t =>
    runCallback (callback t)
      {| state := state w; timeouts := dropNth n (timeouts w); updates := updates w |}
  end.

Section Session.

Variable toLowerCase : jsstring -> jsstring.

(** The handler that runs is the one of the current render. *)
Definition submitAnswer (w : World) : Completion :=
  handleSubmitAnswer toLowerCase (state w) w.

Definition onTimeout (w : World) : Completion := handleTimeOut (state w) w.


Definition step (w : World) (e : Event) : World :=
  match e with
  | Input v => w |> upd (setAnswerInput v)
  | Submit => world_of (submitAnswer w)
  | Tick =>
    if timerRunning (state w)
    then w |> upd (modTimeLeft (fun prev => prev - 1))
    else w
  | TimeUp => if timerExpired (state w) then world_of (onTimeout w) else w
  | Fire n => fire n w
  | SubmitBeforeEffect =>
    let r := state w in
    let w1 := world_of (handleSubmitAnswer toLowerCase r w) in
    if timerExpired r then world_of (handleTimeOut r w1) else w1
  end.

Definition run (w : World) (es : list Event) : World := fold_left step es w.

End Session.

(** ** An engine to run the handlers on *)

(** [toLowerCase] on Basic Latin: [A]-[Z] go to [a]-[z]. *)
Definition lowerLatinUnit (c : N) : N :=
  if ((65 <=? c) && (c <=? 90))%N then (c + 32)%N else c.

Definition toLowerCaseLatin (s : jsstring) : jsstring := map lowerLatinUnit s.

Definition isBasicLatin (s : jsstring) : Prop := Forall (fun c => (c < 128)%N) s.

(** A sort driven by random answers: insertion, each comparison answered
    by the next bit. *)
Fixpoint insertRandom {A} (x : A) (l : list A) (bits : list bool)
  : list A * list bool :=
  match l, bits with
  | y :: l', false :: bits' =>
    let '(out, bits'') := insertRandom x l' bits' in (y :: out, bits'')
  | _, _ => (x :: l, tl bits)
  end.

Fixpoint sortRandomInsertion {A} (bits : list bool) (l : list A)
  : list A * list bool :=
  match l with
  | [] => ([], bits)
  | x :: l' =>
    let '(sorted, bits') := sortRandomInsertion bits l' in
    insertRandom x sorted bits'
  end.

Definition insertionShuffle (bits : list bool) (l : list Question) : list Question :=
  fst (sortRandomInsertion bits l).

Definition readyState : State :=
  initialState |> setDb (Some firestore) |> setUserId (Some (js "uid-1"))
               |> setIsAuthReady true.

Definition readyWorld : World := mkWorld readyState [] [].

Definition demoStart : World :=
  startGame insertionShuffle [] readyState readyWorld.


(** ** Orderings of the bank and how likely each is *)

Definition Question_eq_dec : forall a b : Question, {a = b} + {a <> b}.
Proof.
  decide equality; try apply Z.eq_dec; apply jsstring_eq_dec.
Defined.

Definition questions_eq_dec : forall a b : list Question, {a = b} + {a <> b} :=
  list_eq_dec Question_eq_dec.

(** All orderings of a list. *)
Fixpoint insertEverywhere {A} (x : A) (l : list A) : list (list A) :=
  match l with
  | [] => [[x]]
  | y :: l' => (x :: l) :: map (cons y) (insertEverywhere x l')
  end.

Fixpoint orderings {A} (l : list A) : list (list A) :=
  match l with
  | [] => [[]]
  | x :: l' => flat_map (insertEverywhere x) (orderings l')
  end.

(** All sequences of [n] random bits; each is as likely as any other. *)
Fixpoint allBits (n : nat) : list (list bool) :=
  match n with
  | O => [[]]
  | S n' => map (cons true) (allBits n') ++ map (cons false) (allBits n')
  end.

(** How many of the bit sequences of length [n] make the shuffle of
    [startGame] come out as [p]. *)
Definition outcomes (sortRandom : list bool -> list Question -> list Question)
    (n : nat) (p : list Question) : nat :=
  length (filter (fun bits =>
                    if questions_eq_dec (sortRandom bits CHOSUNG_QUESTIONS) p
                    then true else false)
                 (allBits n)).

(** Every ordering of the bank is equally likely. *)
Definition uniformShuffle (sortRandom : list bool -> list Question -> list Question)
    (n : nat) : Prop :=
  forall p1 p2,
    Permutation CHOSUNG_QUESTIONS p1 -> Permutation CHOSUNG_QUESTIONS p2 ->
    outcomes sortRandom n p1 = outcomes sortRandom n p2.

(** ** What a ranking table has to satisfy *)

Definition docOf (e : Entry.t) : Doc.t :=
  Doc.mk (Entry.userId e) (Entry.nickname e) (Entry.highScore e).

Definition scoreIs (v : Z) (d : Doc.t) : bool := Doc.highScore d =? v.

(** [out] lists the documents [docs] by descending score, documents of
    equal score in the order they have in [docs]. *)
Definition stableDescending (docs out : list Doc.t) : Prop :=
  Permutation docs out
  /\ StronglySorted (fun a b => Doc.highScore a >= Doc.highScore b) out
  /\ forall v, filter (scoreIs v) out = filter (scoreIs v) docs.

(** Ranks are the 1-based positions. *)
Definition rankedByPosition (table : list Entry.t) : Prop :=
  forall i e, nth_error table i = Some e -> Entry.rank e = Z.of_nat i + 1.

Definition inSnapshot (r : State) (docs : list Doc.t) : bool :=
  existsb (fun d => isMe r (Doc.userId d)) docs.

(** The value the last call of [setMyRank] in [rerank] carries, if there
    is a call at all. *)
Fixpoint ownRank (r : State) (index : Z) (l : list Entry.t) : option MyRank.t :=
  match l with
  | [] => None
  | data :: rest =>
    match ownRank r (index + 1) rest with
    | Some m => Some m
    | None =>
      if isMe r (Entry.userId data)
      then Some (MyRank.mk (index + 1) (Entry.highScore data))
      else None
    end
  end.

(** ** When a submission is taken *)

(** The guard of [handleSubmitAnswer] lets the call through, and the
    current question exists. *)
Definition accepts (s : State) (qData : Question) : Prop :=
  phase s = PhasePlaying
  /\ text (feedback s) = []
  /\ exists questions,
       currentQuestion s = Some questions
       /\ array_get questions (currentQuestionIndex s) = Some qData.

(** The guard turns the call away. *)
Definition locked (s : State) : Prop :=
  phase s <> PhasePlaying \/ currentQuestion s = None \/ text (feedback s) <> [].

Definition descending (a b : Entry.t) : Prop := Entry.highScore a >= Entry.highScore b.

(** ** Sample worlds *)

(** A session started with the bank in source order, then the worlds a few
    keystrokes and events later. *)
Definition typedCorrect : World := demoStart |> upd (setAnswerInput (js " 안녕하세요 ")).

Definition typedWrong : World := demoStart |> upd (setAnswerInput (js "Watermelon")).

Definition afterCorrect : World := world_of (submitAnswer toLowerCaseLatin typedCorrect).

Definition firstQuestion : Question :=
  mkQuestion (js "ㅇㄴㅎㅅㅇ") (js "인사말") (js "안녕하세요") 1.

Definition lastQuestionWorld : World :=
  demoStart |> upd (setCurrentQuestionIndex 4) |> upd (setAnswerInput (js "제주도")).

(** A round with a Basic Latin answer. *)
Definition latinQuestion : Question :=
  mkQuestion (js "ㅇㅅ") (js "영어") (js "answer") 1.

Definition latinWorld : World :=
  readyWorld |> upd (setCurrentQuestion (Some [latinQuestion]))
             |> upd (setPhase PhasePlaying)
             |> upd (setAnswerInput (js "  ANSWER  ")).

(** A player who was ranked by an earlier snapshot, and a snapshot without
    that player. *)
Definition rankedWorld : World :=
  readyWorld |> upd (setMyRank (Some (MyRank.mk 1 50))).

Definition othersOnly : list Doc.t := [Doc.mk (js "uid-2") (js "플레이어-uid-") 30].

Definition withMe : list Doc.t :=
  [Doc.mk (js "uid-2") (js "플레이어-uid-") 30;
   Doc.mk (js "uid-1") (js "플레이어-uid-") 50;
   Doc.mk (js "uid-3") (js "플레이어-uid-") 30].

(** ** Paths of the ranking collection *)

(** [getPublicRankingPath] (line 40), with the [appId] of the hosting page,
    and the collection the ranking listener queries (line 140). *)
Definition getPublicRankingPath (appId docId : jsstring) : jsstring :=
  js "artifacts/" ++ appId ++ js "/public/data/chosung_rankings/" ++ docId.

Definition rankingsCollectionPath (appId : jsstring) : jsstring :=
  js "artifacts/" ++ appId ++ js "/public/data/chosung_rankings".

(** ** What the screens show *)

(** [str[i]]: the code unit at [i] as a string, or [undefined]. *)
Definition string_at (s : jsstring) (i : Z) : option jsstring :=
  match array_get s i with
  | Some c => Some [c]
  | None => None
  end.

(** Play screen (lines 370, 441): the text field is disabled while feedback
    is shown; the button also while the trimmed input is empty. *)
Definition isInputDisabled (s : State) : bool := truthy (text (feedback s)).

Definition submitDisabled (s : State) : bool :=
  (Z.of_nat (length (trim (answerInput s))) =? 0) || isInputDisabled s.

(** Play screen (lines 405-407): the line above the revealed answer. *)
Definition revealLine (s : State) : jsstring :=
  js "❌ "
  ++ (if str_eqb (lastWrongInput s) (js "시간 초과")
      then js "시간 초과로 놓쳤습니다."
      else js "당신의 오답: " ++ [34%N] ++ lastWrongInput s ++ [34%N]).

(** Play screen (lines 402-415): the question area shows the revealed
    answer in place of the clue of the question [qData] while [showAnswer]
    holds. *)
Definition questionArea (s : State) (qData : Question) : jsstring :=
  if showAnswer s then correctAnswerText s else chosung qData.

(** Result screen (line 467): the number after the label of the previous
    high score. *)
Definition previousHighScoreShown (s : State) : Z :=
  highScore s - (if isNewHighScore s then score s else 0).

(** Ranking screen (line 521): the rank cell of the row at [index]. *)
Definition rankCell (index : Z) : option jsstring :=
  if index <? 3 then string_at (js "🥇🥈🥉") index
  else Some (string_of_number (index + 1)).

Definition isSurrogate (c : N) : bool := ((55296 <=? c) && (c <=? 57343))%N.

(** ** The player's profile document *)

(** The fields of a profile document the component reads and writes; a
    field may be missing from a stored document. *)
Module Profile.
Record t : Type :=
  mk { userId : jsstring; nickname : option jsstring; highScore : option Z }.
End Profile.

(** The component with its nickname cell and the documents it has
    created with [setDoc]. *)
Record Account : Type := mkAccount {
  world : World;
  nickname : jsstring;
  registrations : list Profile.t
}.

(** [str.substring(0, n)]. *)
Definition substring0 (n : nat) (str : jsstring) : jsstring := firstn n str.

(** The nickname of a new player (lines 93, 123, 129). *)
Definition defaultNickname (uid : jsstring) : jsstring :=
  js "플레이어-" ++ substring0 4 uid.

(** [data.highScore || 0] and [data.nickname || fallback]. *)
Definition numberOr (v : option Z) (fallback : Z) : Z :=
  match v with
  | Some z => if z =? 0 then fallback else z
  | None => fallback
  end.

Definition stringOr (v : option jsstring) (fallback : jsstring) : jsstring :=
  match v with
  | Some str => if truthy str then str else fallback
  | None => fallback
  end.

(** [loadUserData] (lines 116-134) for the player [uid], given what
    [getDoc] found. *)
Definition loadUserData (uid : jsstring) (found : option Profile.t) (a : Account)
  : Account :=
  match found with
  | Some data =>
    {| world := world a |> upd (setHighScore (numberOr (Profile.highScore data) 0));
       nickname := stringOr (Profile.nickname data) (defaultNickname uid);
       registrations := registrations a |}
  | None =>
    {| world := world a;
       nickname := nickname a;
       registrations :=
         registrations a ++ [Profile.mk uid (Some (defaultNickname uid)) (Some 0)] |}
  end.

(** A stored document after [updateDoc] with the fields of a high-score
    write: the named field is replaced, the others stay. *)
Definition afterUpdate (data : Profile.t) (u : DocUpdate) : Profile.t :=
  Profile.mk (Profile.userId data) (Profile.nickname data) (Some (newHighScore u)).

(** ** The application: clicks, session events, snapshots and the profile load *)

(** The second effect (lines 111-180) calls [loadUserData] once the store,
    the user id and the sign-in are there; the answer of [getDoc] arrives
    later, on whatever screen the player is by then.  Of the cells of the
    world it writes the high score. *)
Definition onProfileLoaded (found : option Profile.t) (w : World) : World :=
  match storeAvailable (state w) with
  | Some uid =>
    if isAuthReady (state w)
    then world (loadUserData uid found (mkAccount w (defaultNickname uid) []))
    else w
  | None => w
  end.

Inductive AppEvent : Type :=
| Play (e : Event)               (* an event of the play session *)
| ClickStart (bits : list bool)  (* the start button and the restart button *)
| ClickRanking                   (* the ranking buttons *)
| ClickBack                      (* the button of the ranking screen *)
| Snapshot (docs : list Doc.t)   (* the listener receives a snapshot *)
| ProfileLoaded (found : option Profile.t). (* getDoc answers loadUserData *)

(** The start and result screens carry the start and ranking buttons. *)
Definition onStartOrResult (s : State) : bool :=
  Phase_eqb (phase s) PhaseStart || Phase_eqb (phase s) PhaseResult.

Section App.

Variable toLowerCase : jsstring -> jsstring.
Variable sortRandom : list bool -> list Question -> list Question.

(** A button acts only on the screen that renders it; the handlers are
    those of the current render. *)
Definition appStep (w : World) (ev : AppEvent) : World :=
  match ev with
  | Play e => step toLowerCase w e
  | ClickStart bits =>
    if onStartOrResult (state w) then startGame sortRandom bits (state w) w else w
  | ClickRanking => if onStartOrResult (state w) then showRanking w else w
  | ClickBack =>
    if Phase_eqb (phase (state w)) PhaseRanking
    then w |> upd (setPhase PhaseStart)
    else w
  | Snapshot docs => onRankingSnapshot (state w) docs w
  | ProfileLoaded found => onProfileLoaded found w
  end.

Definition appRun (w : World) (evs : list AppEvent) : World :=
  fold_left appStep evs w.

End App.

(** ** What holds between the events *)

(** The application as mounted: the start screen, the cells that
    [useState] initialises for the session, nothing pending. *)
Definition booted (w : World) : Prop :=
  timeouts w = []
  /\ phase (state w) = PhaseStart
  /\ score (state w) = 0
  /\ timeLeft (state w) = TIMER_START
  /\ currentQuestionIndex (state w) = 0
  /\ currentQuestion (state w) = None.

(** The render a callback closes over. *)
Definition closure (cb : Callback) : State :=
  match cb with AfterCorrect r | AfterReveal r => r end.

Definition roundLoaded (s : State) : Prop :=
  match currentQuestion s with
  | Some round => length round = 5%nat
  | None => phase s <> PhasePlaying
  end.

(** Countdown and index within their bounds, a round of five on the play
    screen, and no pending callback created at a negative index. *)
Definition inRange (w : World) : Prop :=
  0 <= timeLeft (state w) <= TIMER_START
  /\ 0 <= currentQuestionIndex (state w) < MAX_QUESTIONS
  /\ roundLoaded (state w)
  /\ Forall (fun t => 0 <= currentQuestionIndex (closure (callback t))) (timeouts w).

(** The world in which [handleGameEnd] runs at the end of the fifth
    question: the cells it compares are those of [w], the score is the final
    one. *)
Definition endsFrom (w : World) (final : Z) (w2 : World) : Prop :=
  exists x,
    w2 = handleGameEnd (state w) x
    /\ score (state x) = final
    /\ highScore (state x) = highScore (state w)
    /\ isNewHighScore (state x) = isNewHighScore (state w)
    /\ updates x = updates w.

(** ** More sample worlds *)

Definition lastQuestion : Question :=
  mkQuestion (js "ㅈㅈㄷ") (js "도시") (js "제주도") 3.

(** The fifth question with sixty points so far, answered right or wrong. *)
Definition recordWorld : World := lastQuestionWorld |> upd (setScore 60).

Definition recordWorldWrong : World := recordWorld |> upd (setAnswerInput (js "서울")).

(** The marker typed as an answer, and a blank answer. *)
Definition typedMarker : World := demoStart |> upd (setAnswerInput (js " 시간 초과 ")).

Definition typedBlank : World := demoStart |> upd (setAnswerInput (js "   ")).

(** A player starts a game, types the first answer and submits it. *)
Definition firstSubmission : list AppEvent :=
  [ClickStart []; Play (Input (js "안녕하세요")); Play Submit].

(** The first question with the countdown run out: the render in which the
    effect calls [handleTimeOut]. *)
Definition typedWrongAtZero : World := typedWrong |> upd (setTimeLeft 0).

Definition typedCorrectAtZero : World := typedCorrect |> upd (setTimeLeft 0).

Definition secondQuestion : Question := mkQuestion (js "ㄱㅈ") (js "간식") (js "과자") 2.

(** A question is left until the countdown has run out, and the callback
    of the timeout advances. *)
Definition missQuestion : list AppEvent :=
  map Play (repeat Tick 10 ++ [TimeUp; Fire 0]).

(** A question is answered at once and the callback advances. *)
Definition answerQuestion (v : jsstring) : list AppEvent :=
  map Play [Input v; Submit; Fire 0].

(** Two whole sessions from the start button on: four questions missed and
    the fifth answered, and all five answered. *)
Definition fourMissesThenCorrect : list AppEvent :=
  [ClickStart []] ++ missQuestion ++ missQuestion ++ missQuestion ++ missQuestion
  ++ answerQuestion (js "제주도").

Definition perfectGame : list AppEvent :=
  [ClickStart []] ++ answerQuestion (js "안녕하세요") ++ answerQuestion (js "과자")
  ++ answerQuestion (js "몽구") ++ answerQuestion (js "스마트폰")
  ++ answerQuestion (js "제주도").

(** A session in which the first answer is typed, then submitted on the
    render where the countdown has just reached 0, before the effect of
    that render, and the second answer is given within the second and a
    half that follows. *)
Definition doubleCountedGame : list AppEvent :=
  [ClickStart []; Play (Input (js "안녕하세요"))] ++ map Play (repeat Tick 10)
  ++ map Play [SubmitBeforeEffect; Fire 0;
               Input (js "과자"); Submit; Fire 1; Fire 0]
  ++ answerQuestion (js "과자") ++ answerQuestion (js "몽구")
  ++ answerQuestion (js "스마트폰") ++ answerQuestion (js "제주도").



(** * Properties *)

Lemma str_eqb_eq a b : str_eqb a b = true <-> a = b.
Proof.
  unfold str_eqb. destruct (jsstring_eq_dec a b); split; congruence.
Qed.

Lemma str_eqb_neq a b : str_eqb a b = false <-> a <> b.
Proof.
  unfold str_eqb. destruct (jsstring_eq_dec a b); split; congruence.
Qed.

Lemma Phase_eqb_eq a b : Phase_eqb a b = true <-> a = b.
Proof. destruct a, b; simpl; split; congruence. Qed.


(** ** Submitting an answer *)

Section SubmitAnswer.

Variable toLowerCase : jsstring -> jsstring.

Lemma handleSubmitAnswer_locked r w :
  locked r -> handleSubmitAnswer toLowerCase r w = Normal w.
Proof.
  unfold locked, handleSubmitAnswer. intros [H | [H | H]].
  - destruct (currentQuestion r); [|reflexivity].
    destruct (Phase_eqb (phase r) PhasePlaying) eqn:E; [|reflexivity].
    apply Phase_eqb_eq in E. contradiction.
  - now rewrite H.
  - destruct (currentQuestion r); [|reflexivity].
    destruct (text (feedback r)); [contradiction|].
    simpl. now rewrite orb_true_r.
Qed.

(** Past the guard the handler clears the input and takes one of its two
    branches. *)
Lemma handleSubmitAnswer_accepted r w q :
  accepts r q ->
  handleSubmitAnswer toLowerCase r w =
  let w1 := upd (setAnswerInput (js "")) w in
  if str_eqb (toLowerCase (trim (answerInput r))) (toLowerCase (trim (answer q)))
  then
    Normal (w1 |> upd (modScore (fun prev => prev + (10 + timeLeft r * 1)))
               |> upd (setFeedback
                         (mkFeedback
                            (js "정답! (+" ++ string_of_number (10 + timeLeft r * 1)
                             ++ js "점)")
                            (js "correct")))
               |> setTimeout (AfterCorrect r) 500)
  else
    Normal (w1 |> upd (setLastWrongInput (trim (answerInput r)))
               |> upd (setCorrectAnswerText (answer q))
               |> upd (setShowAnswer true)
               |> upd (setFeedback (mkFeedback (js "오답!") (js "wrong")))
               |> setTimeout (AfterReveal r) 2000).
Proof.
  intros (Hp & Hf & qs & Hq & Hi). unfold handleSubmitAnswer.
  rewrite Hq, Hp, Hf, Hi. reflexivity.
Qed.

Lemma handleTimeOut_loaded r w questions q :
  currentQuestion r = Some questions ->
  array_get questions (currentQuestionIndex r) = Some q ->
  handleTimeOut r w =
  Normal (w |> upd (setLastWrongInput (js "시간 초과"))
            |> upd (setCorrectAnswerText (answer q))
            |> upd (setShowAnswer true)
            |> upd (setFeedback (mkFeedback (js "시간 초과!") (js "wrong")))
            |> setTimeout (AfterReveal r) 2000).
Proof.
  intros Hq Hi. unfold handleTimeOut. now rewrite Hq, Hi.
Qed.

(** C1.  A correct submission taken while playing, with no feedback shown
    and [timeLeft = t], adds exactly [10 + t] to the score, and [10 + t] is
    the number of points the feedback announces. *)
Theorem correct_submission_points w q :
  accepts (state w) q ->
  toLowerCase (trim (answerInput (state w))) = toLowerCase (trim (answer q)) ->
  exists w',
    submitAnswer toLowerCase w = Normal w'
    /\ score (state w') = score (state w) + (10 + timeLeft (state w))
    /\ text (feedback (state w'))
       = js "정답! (+" ++ string_of_number (10 + timeLeft (state w)) ++ js "점)".
Proof.
  intros Hacc Heq. unfold submitAnswer.
  rewrite (handleSubmitAnswer_accepted _ _ _ Hacc). cbv zeta.
  apply str_eqb_eq in Heq. rewrite Heq, Z.mul_1_r.
  eexists. split; [reflexivity|]. split; reflexivity.
Qed.

(** C2.  A submission that is taken is judged correct exactly when the
    input and the canonical answer, each trimmed and lower-cased, are the
    same string, and judged wrong exactly when they are not; with the
    engine's lower-casing of Basic Latin, ["  ANSWER  "] matches the
    canonical ["answer"]. *)
Theorem submission_judged_by_normalised_equality
    (Hlatin : forall s, isBasicLatin s -> toLowerCase s = toLowerCaseLatin s) :
  (forall w q,
      accepts (state w) q ->
      exists w',
        submitAnswer toLowerCase w = Normal w'
        /\ (type (feedback (state w')) = js "correct"
            <-> toLowerCase (trim (answerInput (state w)))
                = toLowerCase (trim (answer q)))
        /\ (type (feedback (state w')) = js "wrong"
            <-> toLowerCase (trim (answerInput (state w)))
                <> toLowerCase (trim (answer q))))
  /\ (forall w q,
         accepts (state w) q ->
         answerInput (state w) = js "  ANSWER  " ->
         answer q = js "answer" ->
         exists w',
           submitAnswer toLowerCase w = Normal w'
           /\ type (feedback (state w')) = js "correct").
Proof.
  assert (Hgen : forall w q,
      accepts (state w) q ->
      exists w',
        submitAnswer toLowerCase w = Normal w'
        /\ (type (feedback (state w')) = js "correct"
            <-> toLowerCase (trim (answerInput (state w)))
                = toLowerCase (trim (answer q)))
        /\ (type (feedback (state w')) = js "wrong"
            <-> toLowerCase (trim (answerInput (state w)))
                <> toLowerCase (trim (answer q)))).
  { intros w q Hacc. unfold submitAnswer.
    rewrite (handleSubmitAnswer_accepted _ _ _ Hacc). cbv zeta.
    destruct (str_eqb _ _) eqn:E.
    - apply str_eqb_eq in E. eexists. split; [reflexivity|]. simpl.
      split; split; intro H; try exact E; try reflexivity.
      + discriminate H.
      + contradiction.
    - apply str_eqb_neq in E. eexists. split; [reflexivity|]. simpl.
      split; split; intro H; try exact E; try reflexivity.
      + discriminate H.
      + contradiction. }
  split; [exact Hgen|].
  intros w q Hacc Hin Hans.
  destruct (Hgen w q Hacc) as (w' & Hw' & Hiff & _).
  exists w'. split; [exact Hw'|]. apply Hiff.
  rewrite Hin, Hans.
  rewrite !Hlatin; [reflexivity | |];
    vm_compute; repeat constructor.
Qed.

(** C10.  A submission that is taken clears the input at once, on a match
    and on a miss alike: the input is empty in the state the handler
    leaves, while the callback that will advance is still pending. *)
Theorem submission_clears_input_at_once w q :
  accepts (state w) q ->
  exists w' cb ms,
    submitAnswer toLowerCase w = Normal w'
    /\ answerInput (state w') = js ""
    /\ timeouts w' = timeouts w ++ [mkTimeout cb ms]
    /\ currentQuestionIndex (state w') = currentQuestionIndex (state w).
Proof.
  intros Hacc. unfold submitAnswer.
  rewrite (handleSubmitAnswer_accepted _ _ _ Hacc). cbv zeta.
  destruct (str_eqb _ _); do 3 eexists; repeat split; reflexivity.
Qed.

(** C8.  While feedback is shown, or outside the playing phase, or with no
    round loaded, submitting changes nothing at all, however often it is
    tried: the whole world, score, reveal, feedback and question index
    included, is as before. *)
Theorem submission_ignored_when_locked w :
  locked (state w) ->
  submitAnswer toLowerCase w = Normal w
  /\ forall n, run toLowerCase w (repeat Submit n) = w.
Proof.
  intros Hl.
  assert (H : submitAnswer toLowerCase w = Normal w)
    by (apply handleSubmitAnswer_locked; exact Hl).
  split; [exact H|].
  induction n as [|n IH]; [reflexivity|].
  simpl. rewrite H. exact IH.
Qed.

Lemma dropNth_scheduled {B} (l : list B) (t : B) : dropNth (length l) (l ++ [t]) = l.
Proof. induction l as [|x l IH]; [reflexivity|]. simpl. now rewrite IH. Qed.

(** The timeout scheduled last runs. *)
Lemma fire_scheduled s l t us :
  fire (length l) (mkWorld s (l ++ [t]) us) = runCallback (callback t) (mkWorld s l us).
Proof.
  unfold fire. cbn [timeouts state updates].
  rewrite nth_error_app2, Nat.sub_diag by apply Nat.le_refl.
  cbn [nth_error]. now rewrite dropNth_scheduled.
Qed.

(** C7.  A timeout is handled like a wrong answer in this: the canonical
    answer is revealed, feedback of type [wrong] is shown, the score is
    untouched and the same callback is scheduled 2000 ms ahead.  It
    differs in three cells: the recorded wrong input is the fixed marker
    where a wrong answer records the trimmed text, the feedback message is
    the timeout message, and the typed input is kept where a wrong answer
    clears it at once.  The callback, when it runs, clears the feedback and
    the reveal and advances.  Before the fifth question the two worlds are
    then the same: the next index, a full countdown, an empty input.  On
    the fifth question the session ends in both, and the input the timeout
    kept is still there. *)
Theorem timeout_handled_as_wrong_answer w q :
  accepts (state w) q ->
  toLowerCase (trim (answerInput (state w))) <> toLowerCase (trim (answer q)) ->
  exists wt ws,
    onTimeout w = Normal wt
    /\ submitAnswer toLowerCase w = Normal ws
    /\ state wt
       = state w |> setLastWrongInput (js "시간 초과")
                 |> setCorrectAnswerText (answer q)
                 |> setShowAnswer true
                 |> setFeedback (mkFeedback (js "시간 초과!") (js "wrong"))
    /\ state ws
       = state w |> setAnswerInput (js "")
                 |> setLastWrongInput (trim (answerInput (state w)))
                 |> setCorrectAnswerText (answer q)
                 |> setShowAnswer true
                 |> setFeedback (mkFeedback (js "오답!") (js "wrong"))
    /\ state wt
       = state ws |> setAnswerInput (answerInput (state w))
                  |> setLastWrongInput (js "시간 초과")
                  |> setFeedback (mkFeedback (js "시간 초과!") (js "wrong"))
    /\ score (state wt) = score (state w)
    /\ timeouts wt = timeouts w ++ [mkTimeout (AfterReveal (state w)) 2000]
    /\ timeouts ws = timeouts wt
    /\ updates wt = updates w
    /\ updates ws = updates w
    /\ (currentQuestionIndex (state w) + 1 < MAX_QUESTIONS ->
        fire (length (timeouts w)) wt
        = mkWorld (state w |> setFeedback noFeedback
                           |> setShowAnswer false
                           |> setCorrectAnswerText (js "")
                           |> setLastWrongInput (js "")
                           |> setCurrentQuestionIndex (currentQuestionIndex (state w) + 1)
                           |> setTimeLeft TIMER_START
                           |> setAnswerInput (js ""))
                  (timeouts w) (updates w)
        /\ fire (length (timeouts w)) ws = fire (length (timeouts w)) wt)
    /\ (MAX_QUESTIONS <= currentQuestionIndex (state w) + 1 ->
        fire (length (timeouts w)) wt
        = handleGameEnd (state w)
            (mkWorld (state w |> setFeedback noFeedback
                              |> setShowAnswer false
                              |> setCorrectAnswerText (js "")
                              |> setLastWrongInput (js ""))
                     (timeouts w) (updates w))
        /\ phase (state (fire (length (timeouts w)) wt)) = PhaseResult
        /\ answerInput (state (fire (length (timeouts w)) wt)) = answerInput (state w)
        /\ answerInput (state (fire (length (timeouts w)) ws)) = js ""
        /\ state (fire (length (timeouts w)) wt)
           = state (fire (length (timeouts w)) ws)
             |> setAnswerInput (answerInput (state w))
        /\ timeouts (fire (length (timeouts w)) ws)
           = timeouts (fire (length (timeouts w)) wt)
        /\ updates (fire (length (timeouts w)) ws)
           = updates (fire (length (timeouts w)) wt)).
Proof.
  intros Hacc Hne. assert (Hacc' := Hacc).
  destruct Hacc' as (_ & _ & round & Hq & Hg).
  unfold onTimeout, submitAnswer.
  rewrite (handleTimeOut_loaded _ _ _ _ Hq Hg).
  rewrite (handleSubmitAnswer_accepted _ _ _ Hacc). cbv zeta.
  apply str_eqb_neq in Hne. rewrite Hne.
  do 2 eexists. do 2 (split; [reflexivity|]).
  do 8 (split; [reflexivity|]).
  unfold setTimeout, upd. cbn [state timeouts updates].
  rewrite !fire_scheduled. cbn [callback runCallback].
  unfold handleNextQuestion, upd. cbn [state timeouts updates].
  split; intros Hi.
  - apply Z.ltb_lt in Hi. rewrite Hi. split; reflexivity.
  - apply Z.ltb_ge in Hi. rewrite Hi.
    unfold handleGameEnd, upd, updateDoc. cbn [state timeouts updates].
    destruct (score (state w) >? highScore (state w));
      [destruct (storeAvailable (state w))|];
      repeat split; reflexivity.
Qed.

End SubmitAnswer.

(** ** Advancing and ending the session *)

Lemma handleGameEnd_state r w :
  phase (state (handleGameEnd r w)) = PhaseResult
  /\ score (state (handleGameEnd r w)) = score (state w)
  /\ timeLeft (state (handleGameEnd r w)) = timeLeft (state w)
  /\ currentQuestionIndex (state (handleGameEnd r w)) = currentQuestionIndex (state w)
  /\ timeouts (handleGameEnd r w) = timeouts w.
Proof.
  unfold handleGameEnd.
  destruct (score r >? highScore r); [destruct (storeAvailable r)|];
    repeat split; reflexivity.
Qed.

Lemma handleNextQuestion_score r w :
  score (state (handleNextQuestion r w)) = score (state w)
  /\ (timeLeft (state (handleNextQuestion r w)) = timeLeft (state w)
      \/ timeLeft (state (handleNextQuestion r w)) = TIMER_START).
Proof.
  unfold handleNextQuestion.
  destruct (currentQuestionIndex r + 1 <? MAX_QUESTIONS).
  - split; [reflexivity | right; reflexivity].
  - destruct (handleGameEnd_state r w) as (_ & Hs & Ht & _).
    split; [exact Hs | left; exact Ht].
Qed.

Lemma startGame_state sortRandom bits r w :
  isAuthReady r = true ->
  phase (state (startGame sortRandom bits r w)) = PhasePlaying
  /\ currentQuestionIndex (state (startGame sortRandom bits r w)) = 0
  /\ score (state (startGame sortRandom bits r w)) = 0
  /\ timeLeft (state (startGame sortRandom bits r w)) = TIMER_START
  /\ currentQuestion (state (startGame sortRandom bits r w))
     = Some (slice0 MAX_QUESTIONS (sortRandom bits CHOSUNG_QUESTIONS)).
Proof.
  intros Hr. unfold startGame. rewrite Hr. cbn [negb].
  repeat split; reflexivity.
Qed.




(** ** The score over a session *)

Section Score.

Variable toLowerCase : jsstring -> jsstring.

Lemma handleSubmitAnswer_score r w :
  (score (state (world_of (handleSubmitAnswer toLowerCase r w))) = score (state w)
   \/ score (state (world_of (handleSubmitAnswer toLowerCase r w)))
      = score (state w) + (10 + timeLeft r))
  /\ timeLeft (state (world_of (handleSubmitAnswer toLowerCase r w)))
     = timeLeft (state w).
Proof.
  unfold handleSubmitAnswer.
  destruct (currentQuestion r) as [qs|]; [|split; [left|]; reflexivity].
  destruct (negb _ || _); [split; [left|]; reflexivity|].
  destruct (array_get qs _) as [q|]; [|split; [left|]; reflexivity].
  destruct (str_eqb _ _).
  - split; [right|]; simpl; [rewrite Z.mul_1_r|]; reflexivity.
  - split; [left|]; reflexivity.
Qed.

Lemma handleTimeOut_score r w :
  score (state (world_of (handleTimeOut r w))) = score (state w)
  /\ timeLeft (state (world_of (handleTimeOut r w))) = timeLeft (state w).
Proof.
  unfold handleTimeOut.
  destruct (currentQuestion r) as [qs|]; [|split; reflexivity].
  destruct (array_get qs _); split; reflexivity.
Qed.

Lemma runCallback_score cb w :
  score (state (runCallback cb w)) = score (state w)
  /\ (timeLeft (state (runCallback cb w)) = timeLeft (state w)
      \/ timeLeft (state (runCallback cb w)) = TIMER_START).
Proof.
  destruct cb as [r|r]; unfold runCallback;
    match goal with
    | |- context [handleNextQuestion r ?x] =>
      destruct (handleNextQuestion_score r x) as (Hs & Ht)
    end; rewrite Hs; split; try reflexivity; exact Ht.
Qed.

Lemma fire_score n w :
  score (state (fire n w)) = score (state w)
  /\ (timeLeft (state (fire n w)) = timeLeft (state w)
      \/ timeLeft (state (fire n w)) = TIMER_START).
Proof.
  unfold fire. destruct (nth_error (timeouts w) n) as [t|].
  - apply (runCallback_score (callback t) (mkWorld (state w) _ (updates w))).
  - split; [reflexivity | left; reflexivity].
Qed.

(** One event: the score does not go down, and the countdown stays at or
    above zero. *)
Lemma step_score_mono w e :
  0 <= timeLeft (state w) ->
  score (state w) <= score (state (step toLowerCase w e))
  /\ 0 <= timeLeft (state (step toLowerCase w e)).
Proof.
  intros Ht. destruct e as [v| | | |n|]; unfold step.
  - simpl. lia.
  - unfold submitAnswer.
    destruct (handleSubmitAnswer_score (state w) w) as ([Hs | Hs] & Hl);
      rewrite Hs, Hl; lia.
  - unfold timerRunning.
    destruct (Phase_eqb _ _); simpl; [|lia].
    destruct (timeLeft (state w) >? 0) eqn:E; simpl; [|lia].
    destruct (negb _); simpl; [|lia].
    apply Z.gtb_gt in E. lia.
  - destruct (timerExpired (state w)); [|lia].
    unfold onTimeout.
    destruct (handleTimeOut_score (state w) w) as (Hs & Hl). rewrite Hs, Hl. lia.
  - destruct (fire_score n w) as (Hs & [Hl | Hl]); rewrite Hs, Hl;
      unfold TIMER_START; lia.
  - cbv zeta.
    destruct (handleSubmitAnswer_score (state w) w) as (Hs & Hl).
    destruct (timerExpired (state w)).
    + destruct (handleTimeOut_score (state w)
                  (world_of (handleSubmitAnswer toLowerCase (state w) w)))
        as (Hs' & Hl').
      rewrite Hs', Hl', Hl. destruct Hs as [Hs | Hs]; rewrite Hs; lia.
    + rewrite Hl. destruct Hs as [Hs | Hs]; rewrite Hs; lia.
Qed.

Lemma run_score_mono es : forall w,
  0 <= timeLeft (state w) ->
  score (state w) <= score (state (run toLowerCase w es))
  /\ 0 <= timeLeft (state (run toLowerCase w es)).
Proof.
  induction es as [|e es IH]; intros w Ht.
  - simpl. lia.
  - simpl. destruct (step_score_mono w e Ht) as (Hs & Ht').
    destruct (IH _ Ht') as (Hs' & Ht''). split; [lia | exact Ht''].
Qed.

(** C6.  From the start of a session on, whatever events follow (typing,
    submissions, ticks, timeouts, pending callbacks running), the score
    after more events is at least the score after fewer.  A timeout leaves
    the score exactly as it was, and so does a submission that is taken and
    does not match. *)
Theorem score_never_decreases sortRandom bits r0 w0 es1 es2 :
  isAuthReady r0 = true ->
  score (state (run toLowerCase (startGame sortRandom bits r0 w0) es1))
  <= score (state (run toLowerCase (startGame sortRandom bits r0 w0) (es1 ++ es2)))
  /\ (forall w, score (state (world_of (onTimeout w))) = score (state w))
  /\ (forall w q,
         accepts (state w) q ->
         toLowerCase (trim (answerInput (state w))) <> toLowerCase (trim (answer q)) ->
         score (state (world_of (submitAnswer toLowerCase w))) = score (state w)).
Proof.
  intros Hr. split; [|split].
  - unfold run at 2. rewrite fold_left_app. fold (run toLowerCase).
    apply run_score_mono. apply run_score_mono.
    destruct (startGame_state sortRandom bits r0 w0 Hr) as (_ & _ & _ & Ht & _).
    rewrite Ht. unfold TIMER_START. lia.
  - intros w. apply handleTimeOut_score.
  - intros w q Hacc Hne. unfold submitAnswer.
    rewrite (handleSubmitAnswer_accepted _ _ _ _ Hacc). cbv zeta.
    apply str_eqb_neq in Hne. rewrite Hne. reflexivity.
Qed.

End Score.

(** ** The ranking table *)

Lemma pushRankings_docs docs : forall i, map docOf (pushRankings i docs) = docs.
Proof.
  induction docs as [|d docs IH]; intros i; simpl; [reflexivity|].
  rewrite IH. destruct d; reflexivity.
Qed.

Lemma sortInsert_perm x l : Permutation (x :: l) (sortInsert byHighScoreDesc x l).
Proof.
  induction l as [|y l IH]; simpl; [reflexivity|].
  destruct (byHighScoreDesc x y <=? 0); [reflexivity|].
  rewrite perm_swap. now apply perm_skip.
Qed.

Lemma array_sort_perm l : Permutation l (array_sort byHighScoreDesc l).
Proof.
  induction l as [|x l IH]; simpl; [constructor|].
  rewrite <- sortInsert_perm. now apply perm_skip.
Qed.

Lemma sortInsert_sorted x l :
  StronglySorted descending l ->
  StronglySorted descending (sortInsert byHighScoreDesc x l).
Proof.
  induction 1 as [|y l Hs IH Hall]; simpl.
  - repeat constructor.
  - unfold byHighScoreDesc at 1.
    destruct (Entry.highScore y - Entry.highScore x <=? 0) eqn:E.
    + apply Z.leb_le in E. constructor; [constructor; assumption|].
      constructor; [unfold descending; lia|].
      eapply Forall_impl; [|exact Hall]. unfold descending. intros; lia.
    + apply Z.leb_gt in E. constructor; [exact IH|].
      eapply Permutation_Forall; [apply sortInsert_perm|].
      constructor; [unfold descending; lia | exact Hall].
Qed.

Lemma array_sort_sorted l : StronglySorted descending (array_sort byHighScoreDesc l).
Proof.
  induction l as [|x l IH]; simpl; [constructor|].
  now apply sortInsert_sorted.
Qed.

Lemma sortInsert_stable v x l :
  filter (fun e => Entry.highScore e =? v) (sortInsert byHighScoreDesc x l)
  = filter (fun e => Entry.highScore e =? v) (x :: l).
Proof.
  induction l as [|y l IH]; [reflexivity|].
  simpl sortInsert. unfold byHighScoreDesc at 1.
  destruct (Entry.highScore y - Entry.highScore x <=? 0) eqn:E; [reflexivity|].
  apply Z.leb_gt in E.
  change (filter ?f (y :: ?t)) with (if f y then y :: filter f t else filter f t).
  rewrite IH. simpl.
  destruct (Entry.highScore x =? v) eqn:Ex; [|reflexivity].
  apply Z.eqb_eq in Ex.
  replace (Entry.highScore y =? v) with false; [reflexivity|].
  symmetry. apply Z.eqb_neq. lia.
Qed.

Lemma array_sort_stable v l :
  filter (fun e => Entry.highScore e =? v) (array_sort byHighScoreDesc l)
  = filter (fun e => Entry.highScore e =? v) l.
Proof.
  induction l as [|x l IH]; [reflexivity|].
  simpl array_sort. rewrite sortInsert_stable. simpl. now rewrite IH.
Qed.

Lemma filter_docOf v l :
  filter (scoreIs v) (map docOf l)
  = map docOf (filter (fun e => Entry.highScore e =? v) l).
Proof.
  induction l as [|e l IH]; [reflexivity|].
  simpl. unfold scoreIs at 1. simpl.
  destruct (Entry.highScore e =? v); simpl; now rewrite IH.
Qed.

Lemma rerank_fst_docs r l : forall i w, map docOf (fst (rerank r i l w)) = map docOf l.
Proof.
  induction l as [|e l IH]; intros i w; [reflexivity|].
  simpl. destruct (rerank r (i + 1) l _) as [out w'] eqn:E.
  simpl. f_equal. specialize (IH (i + 1)). erewrite <- IH. now rewrite E.
Qed.

Lemma rerank_fst_indep r1 r2 l : forall i w1 w2,
  fst (rerank r1 i l w1) = fst (rerank r2 i l w2).
Proof.
  induction l as [|e l IH]; intros i w1 w2; [reflexivity|].
  simpl.
  destruct (rerank r1 (i + 1) l _) as [o1 x1] eqn:E1.
  destruct (rerank r2 (i + 1) l _) as [o2 x2] eqn:E2.
  simpl. f_equal.
  change o1 with (fst (o1, x1)). change o2 with (fst (o2, x2)).
  rewrite <- E1, <- E2. apply IH.
Qed.

Lemma rerank_fst_nth r l : forall i w k e,
  nth_error (fst (rerank r i l w)) k = Some e ->
  Entry.rank e = i + Z.of_nat k + 1
  /\ exists e0, nth_error l k = Some e0
                /\ Entry.userId e = Entry.userId e0
                /\ Entry.highScore e = Entry.highScore e0.
Proof.
  induction l as [|d l IH]; intros i w k e H.
  - destruct k; discriminate H.
  - simpl in H. destruct (rerank r (i + 1) l _) as [out w'] eqn:E.
    destruct k as [|k]; simpl in H.
    + injection H as <-. simpl. split; [lia|]. exists d. repeat split.
    + assert (H' : nth_error (fst (rerank r (i + 1) l
                 (if isMe r (Entry.userId d)
                  then upd (setMyRank (Some (MyRank.mk (i + 1) (Entry.highScore d)))) w
                  else w))) k = Some e) by (rewrite E; exact H).
      apply IH in H'. destruct H' as (Hr & e0 & Hn & Hu & Hh).
      split; [lia|]. exists e0. repeat split; assumption.
Qed.

Lemma rerank_snd r l : forall i w,
  snd (rerank r i l w)
  = match ownRank r i l with
    | Some m => upd (setMyRank (Some m)) w
    | None => w
    end.
Proof.
  induction l as [|d l IH]; intros i w; [reflexivity|].
  simpl. destruct (rerank r (i + 1) l _) as [out w'] eqn:E.
  simpl. change w' with (snd (out, w')). rewrite <- E, IH.
  destruct (ownRank r (i + 1) l) as [m|];
    destruct (isMe r (Entry.userId d)); reflexivity.
Qed.

Lemma ownRank_none r l : forall i,
  ownRank r i l = None <-> existsb (fun e => isMe r (Entry.userId e)) l = false.
Proof.
  induction l as [|d l IH]; intros i; simpl; [tauto|].
  destruct (ownRank r (i + 1) l) as [m|] eqn:E.
  - assert (H : existsb (fun e => isMe r (Entry.userId e)) l <> false).
    { intros H. apply (IH (i + 1)) in H. congruence. }
    destruct (existsb _ l); [|congruence].
    rewrite orb_true_r. split; discriminate.
  - apply (IH (i + 1)) in E. rewrite E, orb_false_r.
    destruct (isMe r (Entry.userId d)); split; congruence.
Qed.

Lemma ownRank_some r l : forall i m,
  ownRank r i l = Some m ->
  exists k e, nth_error l k = Some e
              /\ isMe r (Entry.userId e) = true
              /\ MyRank.rank m = i + Z.of_nat k + 1
              /\ MyRank.score m = Entry.highScore e.
Proof.
  induction l as [|d l IH]; intros i m H; [discriminate H|].
  simpl in H. destruct (ownRank r (i + 1) l) as [m'|] eqn:E.
  - injection H as <-. destruct (IH _ _ E) as (k & e & Hn & Hm & Hr & Hs).
    exists (S k), e. repeat split; try assumption. lia.
  - destruct (isMe r (Entry.userId d)) eqn:Hd; [|discriminate H].
    injection H as <-. exists O, d. repeat split; try assumption. simpl. lia.
Qed.

Lemma existsb_perm {A} (f : A -> bool) l1 l2 :
  Permutation l1 l2 -> existsb f l1 = existsb f l2.
Proof.
  induction 1; simpl; try congruence.
  destruct (f x), (f y); reflexivity.
Qed.

Lemma inSnapshot_entries r docs l :
  Permutation (map docOf l) docs ->
  existsb (fun e => isMe r (Entry.userId e)) l = inSnapshot r docs.
Proof.
  intros H. unfold inSnapshot. rewrite <- (existsb_perm _ _ _ H).
  clear H. induction l as [|e l IH]; [reflexivity|].
  simpl. now rewrite IH.
Qed.

Lemma sorted_entries_docs docs :
  Permutation (map docOf (array_sort byHighScoreDesc (pushRankings 0 docs))) docs.
Proof.
  rewrite <- (pushRankings_docs docs 0) at 2.
  apply Permutation_map. symmetry. apply array_sort_perm.
Qed.

Lemma sorted_docOf l :
  StronglySorted descending l ->
  StronglySorted (fun a b => Doc.highScore a >= Doc.highScore b) (map docOf l).
Proof.
  induction 1 as [|e l Hs IH Hall]; simpl; constructor; [exact IH|].
  rewrite Forall_map. exact Hall.
Qed.

(** The callback as one update of the two cells it writes. *)
Lemma onRankingSnapshot_eq r docs w :
  onRankingSnapshot r docs w
  = let sorted := array_sort byHighScoreDesc (pushRankings 0 docs) in
    (match ownRank r 0 sorted with
     | Some m => upd (setMyRank (Some m)) w
     | None => w
     end) |> upd (setRankingData (fst (rerank r 0 sorted w))).
Proof.
  unfold onRankingSnapshot. cbv zeta.
  rewrite <- rerank_snd.
  destruct (rerank r 0 _ w) as [out w']. reflexivity.
Qed.

(** C9, as the code has it.  The table the callback stores depends on the
    snapshot alone; running the callback again on the same snapshot changes
    nothing; the table lists the documents by descending score, equal
    scores in snapshot order, with ranks the 1-based positions.  When the
    player's id is not in the snapshot the own-rank cell is left as it was
    (absent if it was absent); when it is there, the cell holds a rank of
    at least one, the position of a row of the player. *)
Theorem ranking_recomputed_from_snapshot r docs w :
  (forall r2 w2,
      rankingData (state (onRankingSnapshot r2 docs w2))
      = rankingData (state (onRankingSnapshot r docs w)))
  /\ onRankingSnapshot r docs (onRankingSnapshot r docs w)
     = onRankingSnapshot r docs w
  /\ stableDescending docs
       (map docOf (rankingData (state (onRankingSnapshot r docs w))))
  /\ rankedByPosition (rankingData (state (onRankingSnapshot r docs w)))
  /\ (inSnapshot r docs = false ->
      myRank (state (onRankingSnapshot r docs w)) = myRank (state w))
  /\ (inSnapshot r docs = true ->
      exists m k e,
        myRank (state (onRankingSnapshot r docs w)) = Some m
        /\ MyRank.rank m = Z.of_nat k + 1
        /\ nth_error (rankingData (state (onRankingSnapshot r docs w))) k = Some e
        /\ isMe r (Entry.userId e) = true
        /\ MyRank.score m = Entry.highScore e).
Proof.
  repeat rewrite onRankingSnapshot_eq. cbv zeta.
  set (sorted := array_sort byHighScoreDesc (pushRankings 0 docs)).
  assert (Hin : existsb (fun e => isMe r (Entry.userId e)) sorted = inSnapshot r docs)
    by (apply inSnapshot_entries, sorted_entries_docs).
  split; [|split; [|split; [|split; [|split]]]].
  - intros r2 w2. rewrite onRankingSnapshot_eq. cbv zeta. fold sorted.
    simpl. apply rerank_fst_indep.
  - rewrite (rerank_fst_indep r r sorted 0 _ w).
    destruct (ownRank r 0 sorted); reflexivity.
  - simpl. rewrite rerank_fst_docs. split; [|split].
    + symmetry. apply sorted_entries_docs.
    + apply sorted_docOf, array_sort_sorted.
    + intros v. rewrite filter_docOf. unfold sorted.
      rewrite array_sort_stable, <- filter_docOf, pushRankings_docs. reflexivity.
  - simpl. intros i e H. apply rerank_fst_nth in H. destruct H as (H & _). lia.
  - intros Ha. rewrite <- Hin in Ha. apply ownRank_none with (i := 0) in Ha.
    rewrite Ha. reflexivity.
  - intros Hp. destruct (ownRank r 0 sorted) as [m|] eqn:E.
    + destruct (ownRank_some _ _ _ _ E) as (k & e & Hn & Hm & Hr & Hs).
      simpl.
      assert (Hlen : (k < length (fst (rerank r 0 sorted w)))%nat).
      { rewrite <- (length_map docOf), rerank_fst_docs, length_map.
        apply nth_error_Some. congruence. }
      apply nth_error_Some in Hlen.
      destruct (nth_error (fst (rerank r 0 sorted w)) k) as [e'|] eqn:E';
        [|congruence].
      exists m, k, e'. destruct (rerank_fst_nth _ _ _ _ _ _ E') as (_ & e0 & Hn0 & Hu & Hh).
      rewrite Hn in Hn0. injection Hn0 as <-.
      repeat split; try reflexivity; try lia; try exact E'.
      rewrite Hu. exact Hm.
    + apply ownRank_none in E. congruence.
Qed.

(** ** Orderings and counting *)

Section Orderings.

Context {A : Type} (eq_dec : forall a b : A, {a = b} + {a <> b}).

Lemma insertEverywhere_length (x : A) l :
  length (insertEverywhere x l) = S (length l).
Proof.
  induction l as [|y l IH]; [reflexivity|].
  simpl. now rewrite length_map, IH.
Qed.

Lemma insertEverywhere_perm (x : A) l p :
  In p (insertEverywhere x l) -> Permutation (x :: l) p.
Proof.
  revert p. induction l as [|y l IH]; intros p H; simpl in H.
  - destruct H as [<- | []]. reflexivity.
  - destruct H as [<- | H]; [reflexivity|].
    apply in_map_iff in H. destruct H as (p' & <- & H).
    rewrite perm_swap. apply perm_skip, IH, H.
Qed.

Lemma insertEverywhere_middle (x : A) l1 l2 :
  In (l1 ++ x :: l2) (insertEverywhere x (l1 ++ l2)).
Proof.
  induction l1 as [|y l1 IH]; simpl.
  - destruct l2; left; reflexivity.
  - right. apply in_map, IH.
Qed.

Lemma insertEverywhere_remove (x : A) l p :
  ~ In x l -> In p (insertEverywhere x l) -> remove eq_dec x p = l.
Proof.
  revert p. induction l as [|y l IH]; intros p Hx H; simpl in H.
  - destruct H as [<- | []]. simpl. destruct (eq_dec x x); congruence.
  - destruct H as [<- | H].
    + rewrite remove_cons. apply notin_remove. exact Hx.
    + apply in_map_iff in H. destruct H as (p' & <- & H).
      simpl. destruct (eq_dec x y) as [->|_].
      * exfalso. apply Hx. left. reflexivity.
      * f_equal. apply IH; [|exact H]. intros Hin. apply Hx. right. exact Hin.
Qed.

Lemma NoDup_map_cons (y : A) (L : list (list A)) :
  NoDup L -> NoDup (map (cons y) L).
Proof.
  induction 1 as [|p L Hp Hn IH]; simpl; constructor; [|exact IH].
  intros H. apply in_map_iff in H. destruct H as (q & [= ->] & H). contradiction.
Qed.

Lemma insertEverywhere_NoDup (x : A) l :
  ~ In x l -> NoDup (insertEverywhere x l).
Proof.
  induction l as [|y l IH]; intros Hx; simpl.
  - repeat constructor. intros [].
  - constructor.
    + intros H. apply in_map_iff in H. destruct H as (q & [= -> _] & _).
      apply Hx. left. reflexivity.
    + apply NoDup_map_cons, IH. intros H. apply Hx. right. exact H.
Qed.

Lemma orderings_perm (l p : list A) : In p (orderings l) -> Permutation l p.
Proof.
  revert p. induction l as [|x l IH]; intros p H; simpl in H.
  - destruct H as [<- | []]. constructor.
  - apply in_flat_map in H. destruct H as (q & Hq & H).
    apply insertEverywhere_perm in H. rewrite <- H. apply perm_skip, IH, Hq.
Qed.

Lemma orderings_complete (l p : list A) : Permutation l p -> In p (orderings l).
Proof.
  revert p. induction l as [|x l IH]; intros p H.
  - apply Permutation_nil in H. subst. left. reflexivity.
  - assert (Hin : In x p) by (eapply Permutation_in; [exact H | left; reflexivity]).
    apply in_split in Hin. destruct Hin as (l1 & l2 & ->).
    apply Permutation_cons_app_inv in H.
    simpl. apply in_flat_map. exists (l1 ++ l2). split.
    + apply IH, H.
    + apply insertEverywhere_middle.
Qed.

Lemma orderings_length (l : list A) : length (orderings l) = fact (length l).
Proof.
  induction l as [|x l IH]; [reflexivity|].
  cbn [orderings length fact].
  rewrite flat_map_constant_length with (c := S (length l)).
  - rewrite IH. apply Nat.mul_comm.
  - intros p Hp. rewrite insertEverywhere_length. f_equal.
    symmetry. apply Permutation_length, orderings_perm, Hp.
Qed.

Lemma flat_map_NoDup {B C} (f : B -> list C) (L : list B) :
  NoDup L ->
  (forall p, In p L -> NoDup (f p)) ->
  (forall p q z, In p L -> In q L -> In z (f p) -> In z (f q) -> p = q) ->
  NoDup (flat_map f L).
Proof.
  induction 1 as [|p L Hp Hn IH]; intros Hf Hdis; simpl; [constructor|].
  apply NoDup_app.
  - apply Hf. left. reflexivity.
  - apply IH.
    + intros q Hq. apply Hf. right. exact Hq.
    + intros q1 q2 z H1 H2. apply Hdis; right; assumption.
  - intros z Hz Hz'. apply in_flat_map in Hz'. destruct Hz' as (q & Hq & Hz').
    assert (p = q) by (apply (Hdis p q z); [left; reflexivity | right; exact Hq | | ];
                       assumption).
    subst q. contradiction.
Qed.

Lemma orderings_NoDup (l : list A) : NoDup l -> NoDup (orderings l).
Proof.
  induction 1 as [|x l Hx Hn IH]; simpl.
  - repeat constructor. intros [].
  - assert (Hnot : forall p, In p (orderings l) -> ~ In x p).
    { intros p Hp Hin. apply Hx. eapply Permutation_in; [|exact Hin].
      symmetry. apply orderings_perm, Hp. }
    apply flat_map_NoDup; [exact IH | |].
    + intros p Hp. apply insertEverywhere_NoDup, Hnot, Hp.
    + intros p q z Hp Hq Hzp Hzq.
      rewrite <- (insertEverywhere_remove x p z (Hnot p Hp) Hzp).
      apply (insertEverywhere_remove x q z (Hnot q Hq) Hzq).
Qed.

Lemma list_sum_map_add {B} (a b : B -> nat) (Q : list B) :
  list_sum (map (fun p => (a p + b p)%nat) Q)
  = (list_sum (map a Q) + list_sum (map b Q))%nat.
Proof.
  induction Q as [|q Q IH]; simpl; [reflexivity|]. rewrite IH. lia.
Qed.

Lemma indicator_sum (y : A) (Q : list A) :
  NoDup Q ->
  In y Q ->
  list_sum (map (fun p => if eq_dec y p then 1%nat else 0%nat) Q) = 1%nat.
Proof.
  induction 1 as [|q Q Hq HQ IH]; intros Hin; [destruct Hin|].
  simpl. destruct (eq_dec y q) as [-> | Hne].
  - assert (Hz : forall Q', ~ In q Q' ->
              list_sum (map (fun p => if eq_dec q p then 1%nat else 0%nat) Q') = 0%nat).
    { induction Q' as [|q' Q' IH']; intros Hn; [reflexivity|].
      simpl. destruct (eq_dec q q') as [-> | _].
      - exfalso. apply Hn. left. reflexivity.
      - apply IH'. intros H. apply Hn. right. exact H. }
    now rewrite (Hz Q Hq).
  - destruct Hin as [-> | Hin]; [congruence|]. now apply IH.
Qed.

(** Sorting the elements of [xs] by their image: the classes of the
    values in [P] add up to all of [xs]. *)
Lemma classes_add_up {X} (f : X -> A) (P : list A) (xs : list X) :
  NoDup P ->
  (forall x, In x xs -> In (f x) P) ->
  list_sum (map (fun p => length (filter (fun x => if eq_dec (f x) p then true else false) xs)) P)
  = length xs.
Proof.
  intros HP. induction xs as [|x xs IH]; intros Hin.
  - clear HP Hin. induction P as [|p P IHP]; [reflexivity|].
    simpl. exact IHP.
  - rewrite (map_ext _ (fun p => ((if eq_dec (f x) p then 1 else 0)
               + length (filter (fun x => if eq_dec (f x) p then true else false) xs))%nat)).
    + rewrite list_sum_map_add, IH, indicator_sum; [reflexivity | exact HP | |].
      * apply Hin. left. reflexivity.
      * intros y Hy. apply Hin. right. exact Hy.
    + intros p. simpl. destruct (eq_dec (f x) p); reflexivity.
Qed.

End Orderings.

Lemma allBits_length n : length (allBits n) = (2 ^ n)%nat.
Proof.
  induction n as [|n IH]; [reflexivity|].
  cbn [allBits]. rewrite length_app, !length_map, IH, Nat.pow_succ_r'. lia.
Qed.

Lemma three_not_power_of_two n : ~ Nat.divide 3 (2 ^ n).
Proof.
  induction n as [|n IH]; intros H.
  - destruct H as [k Hk]. simpl in Hk. lia.
  - rewrite Nat.pow_succ_r' in H. apply Nat.gauss in H; [contradiction | reflexivity].
Qed.

Lemma three_divides_fact n : (3 <= n)%nat -> Nat.divide 3 (fact n).
Proof.
  induction n as [|n IH]; intros H; [lia|].
  destruct (Nat.eq_dec n 2) as [-> | Hn].
  - exists 2%nat. reflexivity.
  - cbn [fact]. apply Nat.divide_mul_r, IH. lia.
Qed.

Lemma CHOSUNG_QUESTIONS_NoDup : NoDup CHOSUNG_QUESTIONS.
Proof.
  assert (H : nodup Question_eq_dec CHOSUNG_QUESTIONS = CHOSUNG_QUESTIONS)
    by (vm_compute; reflexivity).
  rewrite <- H. apply NoDup_nodup.
Qed.

(** ** Selecting the round *)

Lemma list_sum_const {B} (c : nat) (Q : list B) :
  list_sum (map (fun _ => c) Q) = (length Q * c)%nat.
Proof.
  induction Q as [|q Q IH]; simpl; [reflexivity|]. now rewrite IH.
Qed.

(** However the engine sorts and however many random bits it draws, the
    orderings of the ten questions cannot all be equally likely: there are
    [10!] of them, and the [2 ^ n] bit sequences do not split into [10!]
    classes of one size. *)
Lemma no_uniform_shuffle sortRandom n :
  (forall bits, Permutation CHOSUNG_QUESTIONS (sortRandom bits CHOSUNG_QUESTIONS)) ->
  ~ uniformShuffle sortRandom n.
Proof.
  intros Hperm Huni.
  assert (Hsum := classes_add_up questions_eq_dec
                (fun bits => sortRandom bits CHOSUNG_QUESTIONS)
                (orderings CHOSUNG_QUESTIONS) (allBits n)
                (orderings_NoDup Question_eq_dec _ CHOSUNG_QUESTIONS_NoDup)
                (fun bits _ => orderings_complete _ _ (Hperm bits))).
  rewrite (map_ext_in _ (fun _ => outcomes sortRandom n CHOSUNG_QUESTIONS)) in Hsum.
  - rewrite list_sum_const, orderings_length, allBits_length in Hsum.
    apply (three_not_power_of_two n). rewrite <- Hsum.
    apply Nat.divide_mul_l, three_divides_fact.
    change (length CHOSUNG_QUESTIONS) with 10%nat. lia.
  - intros p Hp. apply Huni; [apply orderings_perm, Hp | reflexivity].
Qed.

Lemma firstn_NoDup {B} (n : nat) (l : list B) : NoDup l -> NoDup (firstn n l).
Proof.
  intros H. rewrite <- (firstn_skipn n l) in H.
  apply NoDup_app_remove_r in H. exact H.
Qed.

Lemma firstn_incl {B} (n : nat) (l : list B) : incl (firstn n l) l.
Proof.
  intros x H. rewrite <- (firstn_skipn n l). apply in_or_app. left. exact H.
Qed.

Lemma insertRandom_perm {B} (x : B) l : forall bits,
  Permutation (x :: l) (fst (insertRandom x l bits)).
Proof.
  induction l as [|y l IH]; intros bits; [reflexivity|].
  destruct bits as [|[|] bits]; simpl; try reflexivity.
  specialize (IH bits). destruct (insertRandom x l bits) as [out rest].
  simpl in *. rewrite perm_swap. now apply perm_skip.
Qed.

Lemma sortRandomInsertion_perm {B} (l : list B) : forall bits,
  Permutation l (fst (sortRandomInsertion bits l)).
Proof.
  induction l as [|x l IH]; intros bits; [constructor|].
  simpl. specialize (IH bits).
  destruct (sortRandomInsertion bits l) as [sorted rest]. simpl in IH.
  rewrite <- insertRandom_perm. now apply perm_skip.
Qed.

(** C4, as the code has it.  With a sort that rearranges its array, the
    round of a started session is the first five questions of a
    rearrangement of the bank: five questions, no two the same, each from
    the bank. *)
Theorem round_is_start_of_a_rearrangement sortRandom bits r w :
  isAuthReady r = true ->
  (forall bs, Permutation CHOSUNG_QUESTIONS (sortRandom bs CHOSUNG_QUESTIONS)) ->
  exists shuffled round,
    Permutation CHOSUNG_QUESTIONS shuffled
    /\ round = firstn 5 shuffled
    /\ currentQuestion (state (startGame sortRandom bits r w)) = Some round
    /\ length round = 5%nat
    /\ NoDup round
    /\ incl round CHOSUNG_QUESTIONS.
Proof.
  intros Hr Hperm.
  destruct (startGame_state sortRandom bits r w Hr) as (_ & _ & _ & _ & Hq).
  exists (sortRandom bits CHOSUNG_QUESTIONS), (firstn 5 (sortRandom bits CHOSUNG_QUESTIONS)).
  specialize (Hperm bits).
  split; [exact Hperm|]. split; [reflexivity|]. split; [exact Hq|].
  split; [|split].
  - rewrite length_firstn, <- (Permutation_length Hperm). reflexivity.
  - apply firstn_NoDup. eapply Permutation_NoDup; [exact Hperm|].
    apply CHOSUNG_QUESTIONS_NoDup.
  - intros q H. apply firstn_incl in H.
    eapply Permutation_in; [symmetry; exact Hperm | exact H].
Qed.

(** ** The handlers at work *)

(** The scenario of the specification on the first two questions: a correct
    answer with ten seconds left scores twenty; after the delay the second
    question is up with a fresh countdown; letting it run out keeps the
    score and reveals the answer under the timeout marker. *)
Example scenario_correct_then_timeout :
  let w1 := run toLowerCaseLatin typedCorrect [Submit] in
  let w2 := run toLowerCaseLatin w1 [Fire 0] in
  let w3 := run toLowerCaseLatin w2
                [Tick; Tick; Tick; Tick; Tick; Tick; Tick; Tick; Tick; Tick; TimeUp] in
  (score (state w1), type (feedback (state w1))) = (20, js "correct")
  /\ (currentQuestionIndex (state w2), timeLeft (state w2), text (feedback (state w2)))
     = (1, 10, js "")
  /\ (score (state w3), lastWrongInput (state w3), correctAnswerText (state w3))
     = (20, js "시간 초과", js "과자").
Proof. vm_compute. repeat split. Qed.

Example scenario_wrong_answer :
  let w := run toLowerCaseLatin typedWrong [Submit] in
  (lastWrongInput (state w), correctAnswerText (state w), showAnswer (state w),
   score (state w))
  = (js "Watermelon", js "안녕하세요", true, 0).
Proof. reflexivity. Qed.

(** The callback that ends the session was created in the render before
    the last points were added: after a correct last answer the result
    screen shows the twenty points, while the comparison with the stored
    high score was made with the score of that earlier render. *)
Example last_answer_compared_before_its_points :
  let w := run toLowerCaseLatin lastQuestionWorld [Submit; Fire 0] in
  (phase (state w), score (state w), highScore (state w), isNewHighScore (state w),
   updates w)
  = (PhaseResult, 20, 0, false, []).
Proof. reflexivity. Qed.

(** C3.  Two sessions played from the start button on by a signed-in
    player whose stored high score is 0.  In the first, four questions are
    missed and the fifth is answered with ten seconds left: the session
    ends with 20 points, more than the stored 0, and yet the local high
    score stays 0, the flag stays down and nothing is written.  In the
    second, all five questions are answered at once: the session ends with
    100 points, and the local high score and the one write carry 80.  The
    score compared and written is the one of the render before the last
    answer. *)
Lemma session_end_misses_points_of_last_answer :
  let w := appRun toLowerCaseLatin insertionShuffle readyWorld fourMissesThenCorrect in
  let w' := appRun toLowerCaseLatin insertionShuffle readyWorld perfectGame in
  (phase (state w), score (state w), highScore (state w), isNewHighScore (state w),
   updates w)
  = (PhaseResult, 20, 0, false, [])
  /\ (phase (state w'), score (state w'), highScore (state w'), isNewHighScore (state w'),
      updates w')
     = (PhaseResult, 100, 80, true, [mkDocUpdate (js "uid-1") 80]).
Proof. vm_compute. split; reflexivity. Qed.

Example ranking_of_three :
  rankingData (state (onRankingSnapshot readyState withMe readyWorld))
  = [Entry.mk 1 (js "uid-1") (js "플레이어-uid-") 50;
     Entry.mk 2 (js "uid-2") (js "플레이어-uid-") 30;
     Entry.mk 3 (js "uid-3") (js "플레이어-uid-") 30]
  /\ myRank (state (onRankingSnapshot readyState withMe readyWorld))
     = Some (MyRank.mk 1 50).
Proof. split; reflexivity. Qed.

(** ** The specification's wording against the code *)

(** C4: no sort and no number of random bits make all orderings of the
    bank equally likely. *)
Lemma shuffle_is_never_uniform :
  ~ exists sortRandom n,
      (forall bits, Permutation CHOSUNG_QUESTIONS (sortRandom bits CHOSUNG_QUESTIONS))
      /\ uniformShuffle sortRandom n.
Proof.
  intros (sortRandom & n & Hperm & Huni).
  exact (no_uniform_shuffle sortRandom n Hperm Huni).
Qed.


(** C7: a wrong answer is typed on the first question.  Submitted, it
    leaves the input empty under the wrong-answer message.  Left until the
    countdown has run out, it is still in the input after the timeout,
    under the timeout message.  The two differ in more than the recorded
    wrong input. *)
Lemma timeout_keeps_input_and_has_own_message :
  run toLowerCaseLatin typedWrong (repeat Tick 10) = typedWrongAtZero
  /\ timerExpired (state typedWrongAtZero) = true
  /\ answerInput (state (step toLowerCaseLatin typedWrongAtZero TimeUp)) = js "Watermelon"
  /\ text (feedback (state (step toLowerCaseLatin typedWrongAtZero TimeUp)))
     = js "시간 초과!"
  /\ answerInput (state (step toLowerCaseLatin typedWrong Submit)) = []
  /\ text (feedback (state (step toLowerCaseLatin typedWrong Submit))) = js "오답!".
Proof. vm_compute. repeat split. Qed.

(** C9: a snapshot without the player leaves the own rank of an earlier
    snapshot in place; the cell is not absent. *)
Lemma own_rank_survives_snapshot_without_player :
  inSnapshot (state rankedWorld) othersOnly = false
  /\ myRank (state (onRankingSnapshot (state rankedWorld) othersOnly rankedWorld))
     = Some (MyRank.mk 1 50).
Proof. split; reflexivity. Qed.

(** ** The theorems at sample worlds *)

Lemma typedCorrect_accepts : accepts (state typedCorrect) firstQuestion.
Proof. split; [|split]; try reflexivity. eexists. split; reflexivity. Qed.

Lemma typedWrong_accepts : accepts (state typedWrong) firstQuestion.
Proof. split; [|split]; try reflexivity. eexists. split; reflexivity. Qed.

Lemma latinWorld_accepts : accepts (state latinWorld) latinQuestion.
Proof. split; [|split]; try reflexivity. eexists. split; reflexivity. Qed.

Lemma insertionShuffle_perm bits l : Permutation l (insertionShuffle bits l).
Proof. apply sortRandomInsertion_perm. Qed.

Lemma correct_submission_points_witness :
  accepts (state typedCorrect) firstQuestion
  /\ toLowerCaseLatin (trim (answerInput (state typedCorrect)))
     = toLowerCaseLatin (trim (answer firstQuestion))
  /\ exists w',
      submitAnswer toLowerCaseLatin typedCorrect = Normal w'
      /\ score (state w') = score (state typedCorrect) + (10 + timeLeft (state typedCorrect))
      /\ text (feedback (state w'))
         = js "정답! (+" ++ string_of_number (10 + timeLeft (state typedCorrect)) ++ js "점)".
Proof.
  split; [exact typedCorrect_accepts|]. split; [reflexivity|].
  apply (correct_submission_points toLowerCaseLatin typedCorrect firstQuestion).
  - exact typedCorrect_accepts.
  - reflexivity.
Defined.

Lemma submission_judged_by_normalised_equality_witness :
  (forall s, isBasicLatin s -> toLowerCaseLatin s = toLowerCaseLatin s)
  /\ accepts (state latinWorld) latinQuestion
  /\ exists w',
      submitAnswer toLowerCaseLatin latinWorld = Normal w'
      /\ type (feedback (state w')) = js "correct".
Proof.
  split; [reflexivity|]. split; [exact latinWorld_accepts|].
  apply (proj2 (submission_judged_by_normalised_equality toLowerCaseLatin
                  (fun s _ => eq_refl)) latinWorld latinQuestion).
  - exact latinWorld_accepts.
  - reflexivity.
  - reflexivity.
Defined.

Lemma submission_clears_input_at_once_witness :
  accepts (state typedWrong) firstQuestion
  /\ exists w' cb ms,
      submitAnswer toLowerCaseLatin typedWrong = Normal w'
      /\ answerInput (state w') = js ""
      /\ timeouts w' = timeouts typedWrong ++ [mkTimeout cb ms]
      /\ currentQuestionIndex (state w') = currentQuestionIndex (state typedWrong).
Proof.
  split; [exact typedWrong_accepts|].
  apply (submission_clears_input_at_once toLowerCaseLatin typedWrong firstQuestion).
  exact typedWrong_accepts.
Defined.

Lemma submission_ignored_when_locked_witness :
  locked (state afterCorrect)
  /\ submitAnswer toLowerCaseLatin afterCorrect = Normal afterCorrect
  /\ forall n, run toLowerCaseLatin afterCorrect (repeat Submit n) = afterCorrect.
Proof.
  assert (H : locked (state afterCorrect)) by (right; right; discriminate).
  split; [exact H|].
  apply (submission_ignored_when_locked toLowerCaseLatin afterCorrect H).
Defined.

Lemma typedWrongAtZero_accepts : accepts (state typedWrongAtZero) firstQuestion.
Proof. split; [|split]; try reflexivity. eexists. split; reflexivity. Qed.

Lemma timeout_handled_as_wrong_answer_witness :
  accepts (state typedWrongAtZero) firstQuestion
  /\ toLowerCaseLatin (trim (answerInput (state typedWrongAtZero)))
     <> toLowerCaseLatin (trim (answer firstQuestion))
  /\ exists wt ws,
      onTimeout typedWrongAtZero = Normal wt
      /\ submitAnswer toLowerCaseLatin typedWrongAtZero = Normal ws
      /\ state wt
         = state ws |> setAnswerInput (answerInput (state typedWrongAtZero))
                    |> setLastWrongInput (js "시간 초과")
                    |> setFeedback (mkFeedback (js "시간 초과!") (js "wrong"))
      /\ timeouts ws = timeouts wt
      /\ fire (length (timeouts typedWrongAtZero)) ws
         = fire (length (timeouts typedWrongAtZero)) wt.
Proof.
  assert (Hne : toLowerCaseLatin (trim (answerInput (state typedWrongAtZero)))
                <> toLowerCaseLatin (trim (answer firstQuestion)))
    by (vm_compute; discriminate).
  split; [exact typedWrongAtZero_accepts|]. split; [exact Hne|].
  destruct (timeout_handled_as_wrong_answer toLowerCaseLatin typedWrongAtZero
              firstQuestion typedWrongAtZero_accepts Hne)
    as (wt & ws & Ht & Hs & _ & _ & Hst & _ & _ & Hts & _ & _ & Hadv & _).
  exists wt, ws. repeat split; try assumption.
  apply Hadv. reflexivity.
Defined.

Lemma score_never_decreases_witness :
  isAuthReady readyState = true
  /\ score (state (run toLowerCaseLatin demoStart [Input (js "과자"); Submit]))
     <= score (state (run toLowerCaseLatin demoStart
                          ([Input (js "과자"); Submit] ++ [Fire 0; Submit]))).
Proof.
  split; [reflexivity|].
  apply (score_never_decreases toLowerCaseLatin insertionShuffle [] readyState readyWorld
           [Input (js "과자"); Submit] [Fire 0; Submit]).
  reflexivity.
Defined.


Lemma ranking_recomputed_from_snapshot_witness :
  (inSnapshot readyState othersOnly = false
   /\ myRank (state (onRankingSnapshot readyState othersOnly readyWorld)) = None)
  /\ (inSnapshot readyState withMe = true
      /\ exists m k e,
          myRank (state (onRankingSnapshot readyState withMe readyWorld)) = Some m
          /\ MyRank.rank m = Z.of_nat k + 1
          /\ nth_error (rankingData (state (onRankingSnapshot readyState withMe readyWorld))) k
             = Some e
          /\ isMe readyState (Entry.userId e) = true
          /\ MyRank.score m = Entry.highScore e).
Proof.
  split; (split; [reflexivity|]).
  - apply (ranking_recomputed_from_snapshot readyState othersOnly readyWorld). reflexivity.
  - apply (ranking_recomputed_from_snapshot readyState withMe readyWorld). reflexivity.
Defined.

Lemma round_is_start_of_a_rearrangement_witness :
  isAuthReady readyState = true
  /\ (forall bs, Permutation CHOSUNG_QUESTIONS (insertionShuffle bs CHOSUNG_QUESTIONS))
  /\ exists shuffled round,
      Permutation CHOSUNG_QUESTIONS shuffled
      /\ round = firstn 5 shuffled
      /\ currentQuestion (state (startGame insertionShuffle [true; false; false; true]
                                           readyState readyWorld)) = Some round
      /\ length round = 5%nat
      /\ NoDup round
      /\ incl round CHOSUNG_QUESTIONS.
Proof.
  split; [reflexivity|].
  split; [intros bs; apply insertionShuffle_perm|].
  apply (round_is_start_of_a_rearrangement insertionShuffle [true; false; false; true]
           readyState readyWorld).
  - reflexivity.
  - intros bs. apply insertionShuffle_perm.
Defined.

(** ** What holds between the events of the application *)

(** Reading a cell through the setters, without touching the arithmetic. *)
Ltac cells :=
  cbn [state timeouts updates upd setTimeout updateDoc callback delay
       phase score highScore timeLeft currentQuestionIndex currentQuestion
       answerInput feedback isNewHighScore showAnswer correctAnswerText
       lastWrongInput rankingData myRank db userId isAuthReady
       setPhase setScore setHighScore setTimeLeft setCurrentQuestionIndex
       setCurrentQuestion setAnswerInput setFeedback setIsNewHighScore
       setShowAnswer setCorrectAnswerText setLastWrongInput setRankingData
       setMyRank setDb setUserId setIsAuthReady modScore modTimeLeft
       text type app world_of] in *.

Lemma array_get_in_range {B} (l : list B) (i : Z) :
  0 <= i < Z.of_nat (length l) -> exists x, array_get l i = Some x.
Proof.
  intros [Hlo Hhi]. unfold array_get.
  replace (i <? 0) with false by (symmetry; apply Z.ltb_ge; exact Hlo).
  destruct (nth_error l (Z.to_nat i)) as [x|] eqn:E; [eauto|].
  apply nth_error_None in E. lia.
Qed.

Lemma correct_feedback_shown n :
  js "정답! (+" ++ string_of_number n ++ js "점)" <> [].
Proof. discriminate. Qed.

Lemma Forall_dropNth {B} (P : B -> Prop) n : forall l,
  Forall P l -> Forall P (dropNth n l).
Proof.
  induction n as [|n IH]; intros [|x l] H; simpl; try exact H.
  - inversion H; assumption.
  - inversion H; subst. constructor; [assumption | apply IH; assumption].
Qed.

Lemma onRankingSnapshot_cells r docs w :
  timeouts (onRankingSnapshot r docs w) = timeouts w
  /\ updates (onRankingSnapshot r docs w) = updates w
  /\ exists own table,
       state (onRankingSnapshot r docs w)
       = state w |> setMyRank own |> setRankingData table.
Proof.
  rewrite onRankingSnapshot_eq. cbv zeta.
  destruct (ownRank r 0 _) as [m|]; cells.
  - repeat split. eauto.
  - repeat split. exists (myRank (state w)). eexists.
    destruct (state w). reflexivity.
Qed.

(** The answer to the profile load writes the high score and nothing
    else. *)
Lemma onProfileLoaded_cells found w :
  timeouts (onProfileLoaded found w) = timeouts w
  /\ updates (onProfileLoaded found w) = updates w
  /\ exists h, state (onProfileLoaded found w) = state w |> setHighScore h.
Proof.
  assert (Hsame : state w = state w |> setHighScore (highScore (state w)))
    by (destruct (state w); reflexivity).
  unfold onProfileLoaded.
  destruct (storeAvailable (state w)) as [uid|]; [|repeat split; eauto].
  destruct (isAuthReady (state w)); [|repeat split; eauto].
  destruct found as [data|]; cbn [loadUserData world]; repeat split; eauto.
  eexists. reflexivity.
Qed.

Section Ranges.

Variable toLowerCase : jsstring -> jsstring.
Variable sortRandom : list bool -> list Question -> list Question.
Hypothesis sort_rearranges :
  forall bits, Permutation CHOSUNG_QUESTIONS (sortRandom bits CHOSUNG_QUESTIONS).

(** The cells the ranges are about. *)
Lemma inRange_frame w w' :
  inRange w ->
  timeLeft (state w') = timeLeft (state w) ->
  currentQuestionIndex (state w') = currentQuestionIndex (state w) ->
  currentQuestion (state w') = currentQuestion (state w) ->
  (phase (state w') = PhasePlaying -> phase (state w) = PhasePlaying) ->
  Forall (fun t => 0 <= currentQuestionIndex (closure (callback t))) (timeouts w') ->
  inRange w'.
Proof.
  intros (Ht & Hi & Hr & Hf) Et Ei Eq Ep Hf'.
  unfold inRange, roundLoaded in *. rewrite Et, Ei, Eq.
  split; [exact Ht|]. split; [exact Hi|]. split; [|exact Hf'].
  destruct (currentQuestion (state w)); [exact Hr|].
  intros H. apply Hr, Ep, H.
Qed.

(** A handler that leaves those cells and schedules at most one callback,
    closing over a render with an index that is not negative. *)
Lemma inRange_scheduled r w w' :
  inRange w ->
  0 <= currentQuestionIndex r ->
  timeLeft (state w') = timeLeft (state w) ->
  currentQuestionIndex (state w') = currentQuestionIndex (state w) ->
  currentQuestion (state w') = currentQuestion (state w) ->
  phase (state w') = phase (state w) ->
  (timeouts w' = timeouts w
   \/ exists cb ms, closure cb = r /\ timeouts w' = timeouts w ++ [mkTimeout cb ms]) ->
  inRange w'.
Proof.
  intros Hc Hr Et Ei Eq Ep Hts.
  apply (inRange_frame w); try assumption.
  - intros H. rewrite <- Ep. exact H.
  - destruct Hc as (_ & _ & _ & Hf).
    destruct Hts as [-> | (cb & ms & Hcb & ->)]; [exact Hf|].
    apply Forall_app. split; [exact Hf|].
    constructor; [|constructor]. cbn [callback]. rewrite Hcb. exact Hr.
Qed.

Lemma handleSubmitAnswer_keeps r w :
  timeLeft (state (world_of (handleSubmitAnswer toLowerCase r w))) = timeLeft (state w)
  /\ currentQuestionIndex (state (world_of (handleSubmitAnswer toLowerCase r w)))
     = currentQuestionIndex (state w)
  /\ currentQuestion (state (world_of (handleSubmitAnswer toLowerCase r w)))
     = currentQuestion (state w)
  /\ phase (state (world_of (handleSubmitAnswer toLowerCase r w))) = phase (state w)
  /\ (timeouts (world_of (handleSubmitAnswer toLowerCase r w)) = timeouts w
      \/ exists cb ms,
           closure cb = r
           /\ timeouts (world_of (handleSubmitAnswer toLowerCase r w))
              = timeouts w ++ [mkTimeout cb ms]).
Proof.
  unfold handleSubmitAnswer.
  destruct (currentQuestion r) as [qs|]; [|repeat split; left; reflexivity].
  destruct (negb _ || _); [repeat split; left; reflexivity|].
  destruct (array_get qs _) as [q|]; [|repeat split; left; reflexivity].
  destruct (str_eqb _ _); repeat split; right; do 2 eexists; (split; [|reflexivity]); reflexivity.
Qed.

Lemma handleTimeOut_keeps r w :
  timeLeft (state (world_of (handleTimeOut r w))) = timeLeft (state w)
  /\ currentQuestionIndex (state (world_of (handleTimeOut r w)))
     = currentQuestionIndex (state w)
  /\ currentQuestion (state (world_of (handleTimeOut r w))) = currentQuestion (state w)
  /\ phase (state (world_of (handleTimeOut r w))) = phase (state w)
  /\ (timeouts (world_of (handleTimeOut r w)) = timeouts w
      \/ exists cb ms,
           closure cb = r
           /\ timeouts (world_of (handleTimeOut r w)) = timeouts w ++ [mkTimeout cb ms]).
Proof.
  unfold handleTimeOut.
  destruct (currentQuestion r) as [qs|]; [|repeat split; left; reflexivity].
  destruct (array_get qs _) as [q|]; [|repeat split; left; reflexivity].
  repeat split; right; do 2 eexists; (split; [|reflexivity]); reflexivity.
Qed.

Lemma inRange_handleSubmitAnswer r w :
  inRange w -> 0 <= currentQuestionIndex r ->
  inRange (world_of (handleSubmitAnswer toLowerCase r w)).
Proof.
  intros Hc Hr.
  destruct (handleSubmitAnswer_keeps r w) as (Et & Ei & Eq & Ep & Hts).
  exact (inRange_scheduled r w _ Hc Hr Et Ei Eq Ep Hts).
Qed.

Lemma inRange_handleTimeOut r w :
  inRange w -> 0 <= currentQuestionIndex r ->
  inRange (world_of (handleTimeOut r w)).
Proof.
  intros Hc Hr.
  destruct (handleTimeOut_keeps r w) as (Et & Ei & Eq & Ep & Hts).
  exact (inRange_scheduled r w _ Hc Hr Et Ei Eq Ep Hts).
Qed.

Lemma inRange_tick w :
  inRange w -> timerRunning (state w) = true ->
  inRange (w |> upd (modTimeLeft (fun prev => prev - 1))).
Proof.
  intros (Ht & Hi & Hr & Hf) He. unfold timerRunning in He.
  apply andb_true_iff in He. destruct He as (He & _).
  apply andb_true_iff in He. destruct He as (_ & Hz).
  apply Z.gtb_gt in Hz.
  unfold inRange, roundLoaded in *; cells. unfold TIMER_START in *.
  repeat split; try lia; assumption.
Qed.

(** A callback either moves to the index after its own one, or ends the
    session. *)
Lemma runCallback_keeps cb w :
  currentQuestion (state (runCallback cb w)) = currentQuestion (state w)
  /\ timeouts (runCallback cb w) = timeouts w
  /\ ((currentQuestionIndex (closure cb) + 1 < MAX_QUESTIONS
       /\ currentQuestionIndex (state (runCallback cb w))
          = currentQuestionIndex (closure cb) + 1
       /\ timeLeft (state (runCallback cb w)) = TIMER_START
       /\ phase (state (runCallback cb w)) = phase (state w))
      \/ (currentQuestionIndex (state (runCallback cb w)) = currentQuestionIndex (state w)
          /\ timeLeft (state (runCallback cb w)) = timeLeft (state w)
          /\ phase (state (runCallback cb w)) = PhaseResult)).
Proof.
  destruct cb as [r|r]; unfold runCallback, handleNextQuestion; cbn [closure];
    destruct (currentQuestionIndex r + 1 <? MAX_QUESTIONS) eqn:E;
    try (apply Z.ltb_lt in E; repeat split; left; repeat split; exact E);
    unfold handleGameEnd;
    (destruct (score r >? highScore r); [destruct (storeAvailable r)|]);
    repeat split; right; repeat split.
Qed.

Lemma inRange_fire n w : inRange w -> inRange (fire n w).
Proof.
  intros Hc. unfold fire.
  destruct (nth_error (timeouts w) n) as [t|] eqn:E; [|exact Hc].
  destruct Hc as (Ht & Hi & Hr & Hf).
  assert (Hcl : 0 <= currentQuestionIndex (closure (callback t))).
  { apply nth_error_In in E. rewrite Forall_forall in Hf. exact (Hf t E). }
  assert (Hf' := Forall_dropNth _ n _ Hf).
  destruct (runCallback_keeps (callback t)
              (mkWorld (state w) (dropNth n (timeouts w)) (updates w)))
    as (Eq & Ets & Hcase).
  unfold inRange, roundLoaded in *. rewrite Eq, Ets. cbn [state timeouts] in *.
  unfold TIMER_START, MAX_QUESTIONS in *.
  destruct Hcase as [(Hlt & Ei & Et' & Ep) | (Ei & Et' & Ep)]; rewrite Ei, Et', Ep.
  - repeat split; try lia; try exact Hf'.
    destruct (currentQuestion (state w)); assumption.
  - repeat split; try lia; try exact Hf'.
    destruct (currentQuestion (state w)); [assumption | discriminate].
Qed.

Lemma inRange_step w e : inRange w -> inRange (step toLowerCase w e).
Proof.
  intros Hc.
  assert (Hi : 0 <= currentQuestionIndex (state w)) by apply Hc.
  destruct e as [v| | | |n|]; unfold step.
  - exact Hc.
  - apply inRange_handleSubmitAnswer; assumption.
  - destruct (timerRunning (state w)) eqn:E; [apply inRange_tick|]; assumption.
  - destruct (timerExpired (state w)); [apply inRange_handleTimeOut|]; assumption.
  - apply inRange_fire, Hc.
  - cbv zeta. destruct (timerExpired (state w)).
    + apply inRange_handleTimeOut; [apply inRange_handleSubmitAnswer|]; assumption.
    + apply inRange_handleSubmitAnswer; assumption.
Qed.

Lemma round_length bits :
  length (slice0 MAX_QUESTIONS (sortRandom bits CHOSUNG_QUESTIONS)) = 5%nat.
Proof.
  unfold slice0. rewrite length_firstn, <- (Permutation_length (sort_rearranges bits)).
  reflexivity.
Qed.

Lemma inRange_startGame bits w :
  inRange w -> inRange (startGame sortRandom bits (state w) w).
Proof.
  intros Hc. unfold startGame. destruct (isAuthReady (state w)); [|exact Hc].
  cbn [negb]. destruct Hc as (_ & _ & _ & Hf).
  unfold inRange, roundLoaded. cells. unfold TIMER_START, MAX_QUESTIONS.
  repeat split; try lia; [apply round_length | exact Hf].
Qed.

Lemma inRange_phase w p :
  inRange w -> p <> PhasePlaying -> inRange (w |> upd (setPhase p)).
Proof.
  intros Hc Hp. apply (inRange_frame w); try reflexivity; [exact Hc | | apply Hc].
  cells. intros H. contradiction.
Qed.

Lemma inRange_appStep w ev :
  inRange w -> inRange (appStep toLowerCase sortRandom w ev).
Proof.
  intros Hc. destruct ev as [e|bits| | |docs|found]; unfold appStep.
  - apply inRange_step, Hc.
  - destruct (onStartOrResult (state w)); [apply inRange_startGame|]; assumption.
  - destruct (onStartOrResult (state w)); [|assumption].
    apply inRange_phase; [assumption | discriminate].
  - destruct (Phase_eqb (phase (state w)) PhaseRanking); [|assumption].
    apply inRange_phase; [assumption | discriminate].
  - destruct (onRankingSnapshot_cells (state w) docs w) as (Ets & _ & own & table & Es).
    apply (inRange_frame w); rewrite ?Es, ?Ets; cells; try reflexivity;
      [exact Hc | auto | apply Hc].
  - destruct (onProfileLoaded_cells found w) as (Ets & _ & h & Es).
    apply (inRange_frame w); rewrite ?Es, ?Ets; cells; try reflexivity;
      [exact Hc | auto | apply Hc].
Qed.

Lemma inRange_appRun evs : forall w,
  inRange w -> inRange (appRun toLowerCase sortRandom w evs).
Proof.
  induction evs as [|ev evs IH]; intros w Hc; [exact Hc|].
  apply IH, inRange_appStep, Hc.
Qed.

Lemma booted_inRange w : booted w -> inRange w.
Proof.
  intros (Hts & Hp & Hs & Ht & Hi & Hq).
  unfold inRange, roundLoaded. rewrite Hts, Hp, Ht, Hi, Hq.
  unfold TIMER_START, MAX_QUESTIONS.
  repeat split; try lia; [discriminate | constructor].
Qed.

End Ranges.

(** ** The application between its events *)

Section Application.

Variable toLowerCase : jsstring -> jsstring.
Variable sortRandom : list bool -> list Question -> list Question.
Hypothesis sort_rearranges :
  forall bits, Permutation CHOSUNG_QUESTIONS (sortRandom bits CHOSUNG_QUESTIONS).

Lemma reachable_inRange w0 evs :
  booted w0 -> inRange (appRun toLowerCase sortRandom w0 evs).
Proof.
  intros Hb. apply inRange_appRun; [exact sort_rearranges|].
  apply booted_inRange, Hb.
Qed.

(** X2.  The countdown stays between 0 and 10 and the question index
    between 0 and 4, on every screen and after every event. *)
Theorem countdown_and_index_in_range w0 evs :
  booted w0 ->
  0 <= timeLeft (state (appRun toLowerCase sortRandom w0 evs)) <= TIMER_START
  /\ 0 <= currentQuestionIndex (state (appRun toLowerCase sortRandom w0 evs))
     < MAX_QUESTIONS.
Proof.
  intros Hb. destruct (reachable_inRange w0 evs Hb) as (Ht & Hi & _).
  split; assumption.
Qed.

(** X4.  No handler meets a missing question: after any events, submitting
    and timing out both return normally, and on the play screen the round
    is loaded with a question at the current index. *)
Theorem handlers_never_throw w0 evs :
  booted w0 ->
  (exists w1, submitAnswer toLowerCase (appRun toLowerCase sortRandom w0 evs) = Normal w1)
  /\ (exists w2, onTimeout (appRun toLowerCase sortRandom w0 evs) = Normal w2)
  /\ (phase (state (appRun toLowerCase sortRandom w0 evs)) = PhasePlaying ->
      exists round q,
        currentQuestion (state (appRun toLowerCase sortRandom w0 evs)) = Some round
        /\ length round = 5%nat
        /\ array_get round
             (currentQuestionIndex (state (appRun toLowerCase sortRandom w0 evs)))
           = Some q).
Proof.
  intros Hb. set (w := appRun toLowerCase sortRandom w0 evs).
  assert (Hc : inRange w) by (apply reachable_inRange, Hb).
  assert (Hq : forall round, currentQuestion (state w) = Some round ->
               length round = 5%nat
               /\ exists q, array_get round (currentQuestionIndex (state w)) = Some q).
  { intros round Hr. destruct Hc as (_ & Hi & Hl & _).
    unfold roundLoaded in Hl. rewrite Hr in Hl. split; [exact Hl|].
    apply array_get_in_range. rewrite Hl. unfold MAX_QUESTIONS in Hi. lia. }
  split; [|split].
  - unfold submitAnswer, handleSubmitAnswer.
    destruct (currentQuestion (state w)) as [round|] eqn:Hr; [|eauto].
    destruct (negb _ || _); [eauto|].
    destruct (Hq round eq_refl) as (_ & q & Hg). rewrite Hg.
    destruct (str_eqb _ _); eauto.
  - unfold onTimeout, handleTimeOut.
    destruct (currentQuestion (state w)) as [round|] eqn:Hr; [|eauto].
    destruct (Hq round eq_refl) as (_ & q & Hg). rewrite Hg. eauto.
  - intros Hph. destruct Hc as (_ & _ & Hl & _). unfold roundLoaded in Hl.
    destruct (currentQuestion (state w)) as [round|] eqn:Hr; [|contradiction].
    destruct (Hq round eq_refl) as (Hlen & q & Hg). exists round, q. auto.
Qed.

End Application.

(** ** How a session ends *)

Section SessionEnd.

Variable toLowerCase : jsstring -> jsstring.

(** The writes a session end issues when the handler holds score [s]. *)
Lemma ending_on_last_question r w :
  currentQuestionIndex r = 4 ->
  handleNextQuestion r w = handleGameEnd r w.
Proof.
  intros Hi. unfold handleNextQuestion. rewrite Hi. reflexivity.
Qed.

Lemma handleGameEnd_max r w :
  highScore r = highScore (state w) ->
  highScore (state (handleGameEnd r w)) = Z.max (highScore (state w)) (score r)
  /\ updates (handleGameEnd r w)
     = updates w
       ++ (if score r >? highScore (state w)
           then match storeAvailable r with
                | Some uid => [mkDocUpdate uid (score r)]
                | None => []
                end
           else [])
  /\ isNewHighScore (state (handleGameEnd r w))
     = (score r >? highScore (state w)) || isNewHighScore (state w)
  /\ score (state (handleGameEnd r w)) = score (state w)
  /\ phase (state (handleGameEnd r w)) = PhaseResult.
Proof.
  intros Hh. unfold handleGameEnd. rewrite Hh.
  destruct (score r >? highScore (state w)) eqn:E.
  - apply Z.gtb_gt in E.
    destruct (storeAvailable r); cells; rewrite ?app_nil_r;
      repeat split; try reflexivity; lia.
  - rewrite Z.gtb_ltb in E. apply Z.ltb_ge in E. cells. rewrite app_nil_r.
    repeat split; try reflexivity; lia.
Qed.

Lemma correct_last_answer_ends w q :
  accepts (state w) q ->
  timeouts w = [] ->
  currentQuestionIndex (state w) = 4 ->
  toLowerCase (trim (answerInput (state w))) = toLowerCase (trim (answer q)) ->
  endsFrom w (score (state w) + (10 + timeLeft (state w)))
           (run toLowerCase w [Submit; Fire 0]).
Proof.
  intros Hacc Hts Hi Heq. cbn [run fold_left step].
  unfold submitAnswer. rewrite (handleSubmitAnswer_accepted _ _ _ _ Hacc). cbv zeta.
  apply str_eqb_eq in Heq. rewrite Heq. cells. rewrite Z.mul_1_r.
  unfold fire. cells. rewrite Hts. cbn [app nth_error dropNth callback].
  unfold runCallback. rewrite (ending_on_last_question _ _ Hi).
  eexists. split; [reflexivity|]. cells. repeat split; reflexivity.
Qed.

Lemma wrong_last_answer_ends w q :
  accepts (state w) q ->
  timeouts w = [] ->
  currentQuestionIndex (state w) = 4 ->
  toLowerCase (trim (answerInput (state w))) <> toLowerCase (trim (answer q)) ->
  endsFrom w (score (state w)) (run toLowerCase w [Submit; Fire 0]).
Proof.
  intros Hacc Hts Hi Hne. cbn [run fold_left step].
  unfold submitAnswer. rewrite (handleSubmitAnswer_accepted _ _ _ _ Hacc). cbv zeta.
  apply str_eqb_neq in Hne. rewrite Hne. cells.
  unfold fire. cells. rewrite Hts. cbn [app nth_error dropNth callback].
  unfold runCallback. rewrite (ending_on_last_question _ _ Hi).
  eexists. split; [reflexivity|]. cells. repeat split; reflexivity.
Qed.

Lemma timed_out_last_question_ends w q :
  accepts (state w) q ->
  timeouts w = [] ->
  currentQuestionIndex (state w) = 4 ->
  endsFrom w (score (state w)) (fire 0 (world_of (onTimeout w))).
Proof.
  intros (_ & _ & round & Hq & Hg) Hts Hi.
  unfold onTimeout. rewrite (handleTimeOut_loaded _ _ _ _ Hq Hg). cells.
  unfold fire. cells. rewrite Hts. cbn [app nth_error dropNth callback].
  unfold runCallback. rewrite (ending_on_last_question _ _ Hi).
  eexists. split; [reflexivity|]. cells. repeat split; reflexivity.
Qed.

Lemma endsFrom_cells w final w2 :
  endsFrom w final w2 ->
  phase (state w2) = PhaseResult
  /\ score (state w2) = final
  /\ highScore (state w2) = Z.max (highScore (state w)) (score (state w))
  /\ updates w2
     = updates w
       ++ (if score (state w) >? highScore (state w)
           then match storeAvailable (state w) with
                | Some uid => [mkDocUpdate uid (score (state w))]
                | None => []
                end
           else [])
  /\ isNewHighScore (state w2)
     = (score (state w) >? highScore (state w)) || isNewHighScore (state w).
Proof.
  intros (x & -> & Es & Eh & En & Eu).
  destruct (handleGameEnd_max (state w) x (eq_sym Eh)) as (Hh & Hu & Hn & Hs & Hp).
  rewrite Hh, Hu, Hn, Hs, Hp, Es, Eh, En, Eu. repeat split; reflexivity.
Qed.

(** X7.  When the fifth question is answered correctly, the session ends
    with the points of that answer in the score, but the comparison with
    the stored high score, the new local high score and the value written
    are those of the score before that answer. *)
Theorem last_correct_answer_not_in_high_score w q :
  accepts (state w) q ->
  timeouts w = [] ->
  currentQuestionIndex (state w) = 4 ->
  toLowerCase (trim (answerInput (state w))) = toLowerCase (trim (answer q)) ->
  let w2 := run toLowerCase w [Submit; Fire 0] in
  phase (state w2) = PhaseResult
  /\ score (state w2) = score (state w) + (10 + timeLeft (state w))
  /\ highScore (state w2) = Z.max (highScore (state w)) (score (state w))
  /\ updates w2
     = updates w
       ++ (if score (state w) >? highScore (state w)
           then match storeAvailable (state w) with
                | Some uid => [mkDocUpdate uid (score (state w))]
                | None => []
                end
           else [])
  /\ isNewHighScore (state w2)
     = (score (state w) >? highScore (state w)) || isNewHighScore (state w).
Proof.
  intros Hacc Hts Hi Heq. cbv zeta.
  apply endsFrom_cells, (correct_last_answer_ends w q); assumption.
Qed.

(** X8.  When the fifth question is missed, by a wrong answer or by the
    countdown, the session ends with the score unchanged and the final
    score is the one compared: the local high score becomes the larger of
    the two, and the final score is what is written. *)
Theorem missed_last_question_counts_final_score w q :
  accepts (state w) q ->
  timeouts w = [] ->
  currentQuestionIndex (state w) = 4 ->
  (toLowerCase (trim (answerInput (state w))) <> toLowerCase (trim (answer q)) ->
   let w2 := run toLowerCase w [Submit; Fire 0] in
   phase (state w2) = PhaseResult
   /\ score (state w2) = score (state w)
   /\ highScore (state w2) = Z.max (highScore (state w)) (score (state w2))
   /\ updates w2
      = updates w
        ++ (if score (state w2) >? highScore (state w)
            then match storeAvailable (state w) with
                 | Some uid => [mkDocUpdate uid (score (state w2))]
                 | None => []
                 end
            else []))
  /\ (let w3 := fire 0 (world_of (onTimeout w)) in
      phase (state w3) = PhaseResult
      /\ score (state w3) = score (state w)
      /\ highScore (state w3) = Z.max (highScore (state w)) (score (state w3))
      /\ updates w3
         = updates w
           ++ (if score (state w3) >? highScore (state w)
               then match storeAvailable (state w) with
                    | Some uid => [mkDocUpdate uid (score (state w3))]
                    | None => []
                    end
               else [])).
Proof.
  intros Hacc Hts Hi. split.
  - intros Hne. cbv zeta.
    destruct (endsFrom_cells _ _ _ (wrong_last_answer_ends w q Hacc Hts Hi Hne))
      as (Ep & Es & Eh & Eu & _).
    rewrite Es. repeat split; assumption.
  - cbv zeta.
    destruct (endsFrom_cells _ _ _ (timed_out_last_question_ends w q Hacc Hts Hi))
      as (Ep & Es & Eh & Eu & _).
    rewrite Es. repeat split; assumption.
Qed.

(** X9.  On the result screen of a session that set a new high score the
    number shown as the previous high score is not the previous high
    score: it is 0 when the fifth question was missed, and minus the points
    of the fifth answer when that answer was correct. *)
Theorem previous_high_score_line_after_record w q :
  accepts (state w) q ->
  timeouts w = [] ->
  currentQuestionIndex (state w) = 4 ->
  score (state w) > highScore (state w) ->
  (toLowerCase (trim (answerInput (state w))) <> toLowerCase (trim (answer q)) ->
   previousHighScoreShown (state (run toLowerCase w [Submit; Fire 0])) = 0)
  /\ (toLowerCase (trim (answerInput (state w))) = toLowerCase (trim (answer q)) ->
      previousHighScoreShown (state (run toLowerCase w [Submit; Fire 0]))
      = - (10 + timeLeft (state w)))
  /\ previousHighScoreShown (state (fire 0 (world_of (onTimeout w)))) = 0.
Proof.
  intros Hacc Hts Hi Hgt.
  assert (Hb : (score (state w) >? highScore (state w)) = true) by (apply Z.gtb_gt, Hgt).
  assert (Hshown : forall final w2,
             endsFrom w final w2 ->
             previousHighScoreShown (state w2) = score (state w) - final).
  { intros final w2 He. unfold previousHighScoreShown.
    destruct (endsFrom_cells _ _ _ He) as (_ & Es & Eh & _ & En).
    rewrite Es, Eh, En, Hb. cbn [orb]. lia. }
  split; [|split].
  - intros Hne. rewrite (Hshown _ _ (wrong_last_answer_ends w q Hacc Hts Hi Hne)). lia.
  - intros Heq. rewrite (Hshown _ _ (correct_last_answer_ends w q Hacc Hts Hi Heq)). lia.
  - rewrite (Hshown _ _ (timed_out_last_question_ends w q Hacc Hts Hi)). lia.
Qed.

End SessionEnd.

(** ** Typing, the button and the countdown *)

Lemma trimStart_spaces ws s :
  Forall (fun c => isWhiteSpace c = true) ws -> trimStart (ws ++ s) = trimStart s.
Proof.
  induction 1 as [|c ws Hc Hws IH]; [reflexivity|].
  simpl. now rewrite Hc.
Qed.

Lemma trimStart_all_spaces ws :
  Forall (fun c => isWhiteSpace c = true) ws -> trimStart ws = [].
Proof.
  intros H. rewrite <- (app_nil_r ws). now rewrite trimStart_spaces.
Qed.

Lemma trimEnd_spaces s ws :
  Forall (fun c => isWhiteSpace c = true) ws -> trimEnd (s ++ ws) = trimEnd s.
Proof.
  intros H. unfold trimEnd. rewrite rev_app_distr, trimStart_spaces; [reflexivity|].
  apply Forall_rev, H.
Qed.

Lemma trimStart_then_spaces s ws :
  Forall (fun c => isWhiteSpace c = true) ws ->
  trimEnd (trimStart (s ++ ws)) = trimEnd (trimStart s).
Proof.
  intros H. induction s as [|c s IH].
  - simpl. now rewrite (trimStart_all_spaces ws H).
  - simpl. destruct (isWhiteSpace c); [exact IH|].
    change (c :: s ++ ws) with ((c :: s) ++ ws). now apply trimEnd_spaces.
Qed.

Lemma trim_padding ws1 s ws2 :
  Forall (fun c => isWhiteSpace c = true) ws1 ->
  Forall (fun c => isWhiteSpace c = true) ws2 ->
  trim (ws1 ++ s ++ ws2) = trim s.
Proof.
  intros H1 H2. unfold trim. rewrite trimStart_spaces by exact H1.
  now apply trimStart_then_spaces.
Qed.

Section Typing.

Variable toLowerCase : jsstring -> jsstring.

(** X10.  White space typed around an answer changes nothing: with the
    input padded by any white space on either side, a submission that is
    taken leaves the same state (verdict, score, recorded wrong input,
    feedback) as with the bare input. *)
Theorem padding_does_not_change_submission w q v ws1 ws2 :
  accepts (state w) q ->
  Forall (fun c => isWhiteSpace c = true) ws1 ->
  Forall (fun c => isWhiteSpace c = true) ws2 ->
  state (world_of (submitAnswer toLowerCase (w |> upd (setAnswerInput (ws1 ++ v ++ ws2)))))
  = state (world_of (submitAnswer toLowerCase (w |> upd (setAnswerInput v)))).
Proof.
  intros Hacc H1 H2. unfold submitAnswer.
  rewrite (handleSubmitAnswer_accepted _ _ _ q) by exact Hacc.
  rewrite (handleSubmitAnswer_accepted _ _ _ q) by exact Hacc.
  cbv zeta. cells. rewrite (trim_padding ws1 v ws2 H1 H2).
  destruct (str_eqb _ _); reflexivity.
Qed.

(** X11.  On the play screen an enabled submit button means the
    submission is taken: the trimmed input is not empty, and the handler
    clears the input, shows feedback and schedules one callback. *)
Theorem enabled_button_submission_is_taken w round q :
  phase (state w) = PhasePlaying ->
  currentQuestion (state w) = Some round ->
  array_get round (currentQuestionIndex (state w)) = Some q ->
  submitDisabled (state w) = false ->
  trim (answerInput (state w)) <> []
  /\ exists w',
      submitAnswer toLowerCase w = Normal w'
      /\ answerInput (state w') = []
      /\ text (feedback (state w')) <> []
      /\ length (timeouts w') = S (length (timeouts w)).
Proof.
  intros Hph Hq Hg Hd. unfold submitDisabled, isInputDisabled in Hd.
  apply orb_false_iff in Hd. destruct Hd as (Hlen & Hf).
  assert (Hf' : text (feedback (state w)) = [])
    by (destruct (text (feedback (state w))); [reflexivity | discriminate]).
  split.
  - intros Hnil. rewrite Hnil in Hlen. discriminate.
  - assert (Hacc : accepts (state w) q)
      by (split; [exact Hph | split; [exact Hf' | eauto]]).
    unfold submitAnswer. rewrite (handleSubmitAnswer_accepted _ _ _ _ Hacc). cbv zeta.
    destruct (str_eqb _ _); eexists; (split; [reflexivity|]); cells;
      rewrite length_app, Nat.add_comm; repeat split; try reflexivity.
    + apply correct_feedback_shown.
    + discriminate.
Qed.

(** X12.  The handler itself has no check for an empty answer: a
    submission whose input is empty or all white space, which the disabled
    button keeps the player from making, is judged like any wrong answer,
    with an empty text recorded as the wrong input. *)
Theorem blank_submission_is_a_wrong_answer w q :
  accepts (state w) q ->
  trim (answerInput (state w)) = [] ->
  toLowerCase [] <> toLowerCase (trim (answer q)) ->
  submitDisabled (state w) = true
  /\ exists w',
      submitAnswer toLowerCase w = Normal w'
      /\ type (feedback (state w')) = js "wrong"
      /\ lastWrongInput (state w') = []
      /\ showAnswer (state w') = true
      /\ correctAnswerText (state w') = answer q
      /\ score (state w') = score (state w).
Proof.
  intros Hacc Hnil Hne. split.
  - unfold submitDisabled. now rewrite Hnil.
  - unfold submitAnswer. rewrite (handleSubmitAnswer_accepted _ _ _ _ Hacc). cbv zeta.
    rewrite Hnil. apply str_eqb_neq in Hne. rewrite Hne.
    eexists. split; [reflexivity|]. cells. repeat split; reflexivity.
Qed.

(** X13.  A wrong answer that reads, once trimmed, as the timeout marker
    is shown as a timeout: the line above the revealed answer is the one a
    timeout gives.  Any other wrong answer is quoted. *)
Theorem typed_marker_is_shown_as_timeout w q :
  accepts (state w) q ->
  toLowerCase (trim (answerInput (state w))) <> toLowerCase (trim (answer q)) ->
  (trim (answerInput (state w)) = js "시간 초과" ->
   revealLine (state (world_of (submitAnswer toLowerCase w)))
   = revealLine (state (world_of (onTimeout w))))
  /\ revealLine (state (world_of (onTimeout w))) = js "❌ 시간 초과로 놓쳤습니다."
  /\ (trim (answerInput (state w)) <> js "시간 초과" ->
      revealLine (state (world_of (submitAnswer toLowerCase w)))
      = js "❌ 당신의 오답: " ++ [34%N] ++ trim (answerInput (state w)) ++ [34%N]).
Proof.
  intros Hacc Hne.
  assert (Hline : forall s, lastWrongInput s = js "시간 초과" ->
                    revealLine s = js "❌ 시간 초과로 놓쳤습니다.").
  { intros s Hs. unfold revealLine. rewrite Hs.
    rewrite (proj2 (str_eqb_eq _ _) eq_refl). vm_compute. reflexivity. }
  assert (Ht : revealLine (state (world_of (onTimeout w))) = js "❌ 시간 초과로 놓쳤습니다.").
  { destruct Hacc as (_ & _ & round & Hq & Hg).
    unfold onTimeout. rewrite (handleTimeOut_loaded _ _ _ _ Hq Hg).
    apply Hline. reflexivity. }
  unfold submitAnswer. rewrite (handleSubmitAnswer_accepted _ _ _ _ Hacc). cbv zeta.
  apply str_eqb_neq in Hne. rewrite Hne.
  split; [|split; [exact Ht|]].
  - intros Hm. rewrite Ht. apply Hline. cells. exact Hm.
  - intros Hm. unfold revealLine. cells.
    apply str_eqb_neq in Hm. rewrite Hm. reflexivity.
Qed.

Lemma quiet_after_feedback w e :
  text (feedback (state w)) <> [] ->
  e = Tick \/ e = TimeUp \/ e = Submit \/ e = SubmitBeforeEffect ->
  step toLowerCase w e = w.
Proof.
  intros Hf He.
  assert (Ht : truthy (text (feedback (state w))) = true)
    by (destruct (text (feedback (state w))); [contradiction | reflexivity]).
  assert (He' : timerExpired (state w) = false)
    by (unfold timerExpired; rewrite Ht; cbn [negb]; apply andb_false_r).
  assert (Hs : handleSubmitAnswer toLowerCase (state w) w = Normal w)
    by (apply handleSubmitAnswer_locked; right; right; exact Hf).
  destruct He as [-> | [-> | [-> | ->]]]; unfold step.
  - unfold timerRunning. rewrite Ht. cbn [negb]. now rewrite andb_false_r.
  - now rewrite He'.
  - unfold submitAnswer. now rewrite Hs.
  - cbv zeta. now rewrite He', Hs.
Qed.

(** X14.  While the feedback of a submission is shown, the play stands
    still, if the submission was taken with time left on the countdown:
    ticks, the expiry and further submissions, in any number and order
    and whether or not a submission comes before the effect of its render,
    leave the world as it is, with one callback more pending than before
    the submission.  After a timeout, ticks and the expiry do the same. *)
Theorem feedback_freezes_play w q es :
  accepts (state w) q ->
  (0 < timeLeft (state w) ->
   Forall (fun e => e = Tick \/ e = TimeUp \/ e = Submit \/ e = SubmitBeforeEffect) es ->
   step toLowerCase w SubmitBeforeEffect = step toLowerCase w Submit
   /\ run toLowerCase (step toLowerCase w Submit) es = step toLowerCase w Submit
   /\ length (timeouts (step toLowerCase w Submit)) = S (length (timeouts w)))
  /\ (timerExpired (state w) = true ->
      Forall (fun e => e = Tick \/ e = TimeUp) es ->
      run toLowerCase (step toLowerCase w TimeUp) es = step toLowerCase w TimeUp
      /\ length (timeouts (step toLowerCase w TimeUp)) = S (length (timeouts w))).
Proof.
  intros Hacc.
  assert (Hstill : forall x,
             text (feedback (state x)) <> [] ->
             Forall (fun e => e = Tick \/ e = TimeUp \/ e = Submit
                              \/ e = SubmitBeforeEffect) es ->
             run toLowerCase x es = x).
  { intros x Hx Hes. induction Hes as [|e es He Hes IH]; [reflexivity|].
    simpl. rewrite (quiet_after_feedback x e Hx He). exact IH. }
  split.
  - intros Hpos Hes.
    assert (He : timerExpired (state w) = false).
    { unfold timerExpired.
      replace (timeLeft (state w) =? 0) with false by (symmetry; apply Z.eqb_neq; lia).
      now rewrite andb_false_r. }
    split; [unfold step; cbv zeta; rewrite He; reflexivity|].
    unfold step, submitAnswer.
    rewrite (handleSubmitAnswer_accepted _ _ _ _ Hacc). cbv zeta.
    split.
    + apply Hstill; [|exact Hes].
      destruct (str_eqb _ _); cells; [apply correct_feedback_shown | discriminate].
    + destruct (str_eqb _ _); cells; rewrite length_app, Nat.add_comm; reflexivity.
  - intros He Hes. destruct Hacc as (_ & _ & round & Hq & Hg).
    unfold step. rewrite He. unfold onTimeout.
    rewrite (handleTimeOut_loaded _ _ _ _ Hq Hg). split.
    + apply Hstill.
      * cells. discriminate.
      * eapply Forall_impl; [|exact Hes]. intros e [-> | ->]; auto.
    + cells. rewrite length_app, Nat.add_comm. reflexivity.
Qed.

Lemma run_app w es1 es2 :
  run toLowerCase w (es1 ++ es2) = run toLowerCase (run toLowerCase w es1) es2.
Proof. unfold run. apply fold_left_app. Qed.

Lemma ticks_run_down t : forall w,
  phase (state w) = PhasePlaying ->
  text (feedback (state w)) = [] ->
  timeLeft (state w) = Z.of_nat t ->
  run toLowerCase w (repeat Tick t) = w |> upd (setTimeLeft 0).
Proof.
  induction t as [|t IH]; intros w Hph Hf Ht.
  - destruct w as [s ts us]. destruct s. cells. subst. reflexivity.
  - assert (Hr : timerRunning (state w) = true).
    { unfold timerRunning. rewrite Hph, Hf, Ht. cbn [Phase_eqb truthy negb andb].
      rewrite andb_true_r. apply Z.gtb_gt. lia. }
    change (run toLowerCase w (repeat Tick (S t)))
      with (run toLowerCase (step toLowerCase w Tick) (repeat Tick t)).
    unfold step. rewrite Hr.
    rewrite IH; cells; try assumption; [reflexivity | lia].
Qed.

Lemma ticks_at_zero k : forall w,
  timeLeft (state w) = 0 -> run toLowerCase w (repeat Tick k) = w.
Proof.
  induction k as [|k IH]; intros w Ht; [reflexivity|].
  change (run toLowerCase w (repeat Tick (S k)))
    with (run toLowerCase (step toLowerCase w Tick) (repeat Tick k)).
  unfold step, timerRunning. rewrite Ht.
  cbn [Z.gtb Z.compare]. rewrite andb_false_r. cbn [andb]. apply IH, Ht.
Qed.

(** X15.  A question left alone times out: after as many ticks as seconds
    were left, and however many more, the countdown stands at 0 with all
    else unchanged; the expiry then reveals the canonical answer under the
    timeout marker, keeps the score and schedules the advance 2000 ms
    ahead. *)
Theorem idle_question_times_out w q t k :
  accepts (state w) q ->
  timeLeft (state w) = Z.of_nat t ->
  run toLowerCase w (repeat Tick (t + k)) = w |> upd (setTimeLeft 0)
  /\ timerExpired (state (run toLowerCase w (repeat Tick (t + k)))) = true
  /\ run toLowerCase w (repeat Tick (t + k) ++ [TimeUp])
     = w |> upd (setTimeLeft 0)
         |> upd (setLastWrongInput (js "시간 초과"))
         |> upd (setCorrectAnswerText (answer q))
         |> upd (setShowAnswer true)
         |> upd (setFeedback (mkFeedback (js "시간 초과!") (js "wrong")))
         |> setTimeout (AfterReveal (setTimeLeft 0 (state w))) 2000.
Proof.
  intros Hacc Ht. destruct Hacc as (Hph & Hf & round & Hq & Hg).
  assert (Hrun : run toLowerCase w (repeat Tick (t + k)) = w |> upd (setTimeLeft 0)).
  { rewrite repeat_app, run_app.
    rewrite (ticks_run_down t w Hph Hf Ht). apply ticks_at_zero. reflexivity. }
  assert (Hexp : timerExpired (state (w |> upd (setTimeLeft 0))) = true).
  { unfold timerExpired. cells. rewrite Hph, Hf. reflexivity. }
  split; [exact Hrun|]. split; [rewrite Hrun; exact Hexp|].
  rewrite run_app, Hrun.
  change (run toLowerCase ?x [TimeUp]) with (step toLowerCase x TimeUp).
  unfold step. rewrite Hexp.
  unfold onTimeout. cells.
  rewrite (handleTimeOut_loaded _ _ round q); cells; try assumption.
  reflexivity.
Qed.

End Typing.

(** ** Screens and paths *)

(** X16.  The rank cells of the first three rows do not hold a medal: each
    holds one code unit of a surrogate pair, and the first and the third
    row hold the same one.  From the fourth row on the cell is the
    position, counted from one. *)
Theorem medal_cells_are_surrogate_halves :
  (forall index, 0 <= index < 3 ->
     exists u, rankCell index = Some [u] /\ isSurrogate u = true)
  /\ rankCell 0 = rankCell 2
  /\ (forall index, 3 <= index -> rankCell index = Some (string_of_number (index + 1))).
Proof.
  split; [|split].
  - intros index Hi.
    assert (H : index = 0 \/ index = 1 \/ index = 2) by lia.
    destruct H as [-> | [-> | ->]]; eexists; split; reflexivity.
  - reflexivity.
  - intros index Hi. unfold rankCell.
    replace (index <? 3) with false by (symmetry; apply Z.ltb_ge; exact Hi).
    reflexivity.
Qed.

(** X17.  A player's document lies in the collection the ranking listener
    queries, one path segment below it, and two players have the same
    document path only if they have the same id. *)
Theorem player_document_in_ranking_collection appId id1 id2 :
  getPublicRankingPath appId id1 = rankingsCollectionPath appId ++ js "/" ++ id1
  /\ (getPublicRankingPath appId id1 = getPublicRankingPath appId id2 -> id1 = id2).
Proof.
  unfold getPublicRankingPath, rankingsCollectionPath. split.
  - change (js "/public/data/chosung_rankings/")
      with (js "/public/data/chosung_rankings" ++ js "/").
    now rewrite <- !app_assoc.
  - intros H. apply app_inv_head in H. apply app_inv_head in H.
    apply app_inv_head in H. exact H.
Qed.

(** ** Snapshots during play *)

Section SnapshotsDuringPlay.

Variable toLowerCase : jsstring -> jsstring.

(** An update of the two ranking cells goes past any event of the play
    session. *)
Lemma ranking_cells_commute table (own : option (option MyRank)) w e :
  let f := fun s => setRankingData table
                      (match own with Some m => setMyRank m s | None => s end) in
  state (step toLowerCase (upd f w) e) = f (state (step toLowerCase w e))
  /\ updates (step toLowerCase (upd f w) e) = updates (step toLowerCase w e)
  /\ length (timeouts (step toLowerCase (upd f w) e))
     = length (timeouts (step toLowerCase w e)).
Proof.
  cbv zeta.
  destruct e as [v| | | |n|]; unfold step.
  - destruct own; repeat split.
  - unfold submitAnswer, handleSubmitAnswer.
    destruct own; cells;
      (destruct (currentQuestion (state w)) as [qs|]; [|repeat split]);
      (destruct (negb _ || _); [repeat split|]);
      (destruct (array_get qs _) as [q|]; [|repeat split]);
      destruct (str_eqb _ _); cells; rewrite !length_app; repeat split.
  - unfold timerRunning.
    destruct own; cells;
      destruct (Phase_eqb _ _ && _ && _); repeat split.
  - unfold timerExpired, onTimeout, handleTimeOut.
    destruct own; cells;
      (destruct (Phase_eqb _ _ && _ && _); [|repeat split]);
      (destruct (currentQuestion (state w)) as [qs|]; [|repeat split]);
      destruct (array_get qs _); cells; rewrite ?length_app; repeat split.
  - unfold fire.
    destruct own; cells;
      (destruct (nth_error (timeouts w) n) as [t|]; [|repeat split]);
      destruct (callback t) as [r|r]; unfold runCallback, handleNextQuestion;
      (destruct (currentQuestionIndex r + 1 <? MAX_QUESTIONS); [repeat split|]);
      unfold handleGameEnd;
      (destruct (score r >? highScore r); [|repeat split]);
      destruct (storeAvailable r); repeat split.
  - cbv zeta. unfold timerExpired, handleSubmitAnswer, handleTimeOut.
    destruct own; cells;
      (destruct (currentQuestion (state w)) as [qs|];
       [|destruct (Phase_eqb _ _ && _ && _); repeat split]);
      destruct (array_get qs _) as [q|];
      (destruct (negb _ || _); [|try destruct (str_eqb _ _)]);
      destruct (Phase_eqb _ _ && _ && _); cells; rewrite ?length_app; repeat split.
Qed.

(** X18.  A ranking snapshot and an event of the play session can come in
    either order: the cells of the component, the writes and the number of
    pending callbacks end up the same.  The snapshot touches the ranking
    table and the own rank only. *)
Theorem snapshot_commutes_with_play r docs w e :
  state (step toLowerCase (onRankingSnapshot r docs w) e)
  = state (onRankingSnapshot r docs (step toLowerCase w e))
  /\ updates (step toLowerCase (onRankingSnapshot r docs w) e)
     = updates (onRankingSnapshot r docs (step toLowerCase w e))
  /\ length (timeouts (step toLowerCase (onRankingSnapshot r docs w) e))
     = length (timeouts (onRankingSnapshot r docs (step toLowerCase w e)))
  /\ timeouts (onRankingSnapshot r docs w) = timeouts w
  /\ updates (onRankingSnapshot r docs w) = updates w.
Proof.
  rewrite !onRankingSnapshot_eq. cbv zeta.
  set (sorted := array_sort byHighScoreDesc (pushRankings 0 docs)).
  rewrite (rerank_fst_indep r r sorted 0 (step toLowerCase w e) w).
  set (table := fst (rerank r 0 sorted w)).
  destruct (ownRank r 0 sorted) as [m|].
  - destruct (ranking_cells_commute table (Some (Some m)) w e) as (Hs & Hu & Hl).
    repeat split; assumption.
  - destruct (ranking_cells_commute table None w e) as (Hs & Hu & Hl).
    repeat split; assumption.
Qed.

End SnapshotsDuringPlay.

(** ** Before the sign-in has finished *)

Section BeforeSignIn.

Variable toLowerCase : jsstring -> jsstring.
Variable sortRandom : list bool -> list Question -> list Question.

Lemma not_playing s :
  phase s <> PhasePlaying -> Phase_eqb (phase s) PhasePlaying = false.
Proof. destruct (phase s); intros H; try reflexivity. contradiction. Qed.

Lemma gated_step w ev :
  isAuthReady (state w) = false ->
  phase (state w) <> PhasePlaying ->
  timeouts w = [] ->
  isAuthReady (state (appStep toLowerCase sortRandom w ev)) = false
  /\ phase (state (appStep toLowerCase sortRandom w ev)) <> PhasePlaying
  /\ timeouts (appStep toLowerCase sortRandom w ev) = []
  /\ score (state (appStep toLowerCase sortRandom w ev)) = score (state w)
  /\ highScore (state (appStep toLowerCase sortRandom w ev)) = highScore (state w)
  /\ currentQuestion (state (appStep toLowerCase sortRandom w ev))
     = currentQuestion (state w)
  /\ updates (appStep toLowerCase sortRandom w ev) = updates w.
Proof.
  intros Ha Hp Hts. destruct ev as [e|bits| | |docs|found]; unfold appStep.
  - destruct e as [v| | | |n|]; unfold step.
    + repeat split; assumption.
    + unfold submitAnswer. rewrite handleSubmitAnswer_locked by (left; exact Hp).
      repeat split; assumption.
    + unfold timerRunning. rewrite (not_playing _ Hp). repeat split; assumption.
    + unfold timerExpired. rewrite (not_playing _ Hp). repeat split; assumption.
    + unfold fire. rewrite Hts. destruct n; repeat split; assumption.
    + cbv zeta. unfold timerExpired. rewrite (not_playing _ Hp).
      rewrite handleSubmitAnswer_locked by (left; exact Hp).
      repeat split; assumption.
  - destruct (onStartOrResult (state w)); [|repeat split; assumption].
    unfold startGame. rewrite Ha. repeat split; assumption.
  - destruct (onStartOrResult (state w)); repeat split; try assumption. discriminate.
  - destruct (Phase_eqb _ PhaseRanking); repeat split; try assumption. discriminate.
  - destruct (onRankingSnapshot_cells (state w) docs w) as (Et & Eu & own & table & Es).
    rewrite Es, Et, Eu. repeat split; assumption.
  - unfold onProfileLoaded. rewrite Ha.
    destruct (storeAvailable (state w)); repeat split; assumption.
Qed.

(** X19.  Until the sign-in has finished no click starts a session: the
    play screen never comes up, no round is loaded, the score stays 0,
    and nothing is scheduled or written. *)
Theorem no_session_before_sign_in w0 evs :
  booted w0 ->
  isAuthReady (state w0) = false ->
  phase (state (appRun toLowerCase sortRandom w0 evs)) <> PhasePlaying
  /\ currentQuestion (state (appRun toLowerCase sortRandom w0 evs)) = None
  /\ score (state (appRun toLowerCase sortRandom w0 evs)) = 0
  /\ highScore (state (appRun toLowerCase sortRandom w0 evs)) = highScore (state w0)
  /\ timeouts (appRun toLowerCase sortRandom w0 evs) = []
  /\ updates (appRun toLowerCase sortRandom w0 evs) = updates w0.
Proof.
  intros (Hts & Hp & Hs & _ & _ & Hq) Ha.
  assert (Hp' : phase (state w0) <> PhasePlaying) by (rewrite Hp; discriminate).
  rewrite <- Hs, <- Hq. clear Hp Hs Hq.
  revert w0 Hts Hp' Ha. induction evs as [|ev evs IH]; intros w0 Hts Hp Ha.
  - repeat split; assumption.
  - destruct (gated_step w0 ev Ha Hp Hts) as (Ea & Ep & Et & Es & Eh & Eq & Eu).
    change (appRun toLowerCase sortRandom w0 (ev :: evs))
      with (appRun toLowerCase sortRandom (appStep toLowerCase sortRandom w0 ev) evs).
    rewrite <- Es, <- Eh, <- Eq, <- Eu. apply IH; assumption.
Qed.

End BeforeSignIn.

(** ** The profile across reloads *)

(** X20.  A first load registers the player once, with score 0 and the
    default nickname, and touches no cell.  Loading that document again
    registers nothing and gives high score 0 and the registered nickname;
    after a high-score write has replaced the stored field, loading gives
    exactly the score written. *)
Theorem profile_survives_reload uid a hs :
  let fresh := Profile.mk uid (Some (defaultNickname uid)) (Some 0) in
  loadUserData uid None a
  = mkAccount (world a) (nickname a) (registrations a ++ [fresh])
  /\ registrations (loadUserData uid (Some fresh) a) = registrations a
  /\ highScore (state (world (loadUserData uid (Some fresh) a))) = 0
  /\ nickname (loadUserData uid (Some fresh) a) = defaultNickname uid
  /\ highScore (state (world (loadUserData uid
                                (Some (afterUpdate fresh (mkDocUpdate uid hs))) a)))
     = hs
  /\ nickname (loadUserData uid (Some (afterUpdate fresh (mkDocUpdate uid hs))) a)
     = defaultNickname uid.
Proof.
  cbv zeta. unfold loadUserData, afterUpdate, numberOr, stringOr.
  cbn [Profile.highScore Profile.nickname Profile.userId newHighScore
       world nickname registrations].
  cells.
  assert (Ht : truthy (defaultNickname uid) = true) by reflexivity.
  rewrite Ht. repeat split.
  destruct (hs =? 0) eqn:E; [|reflexivity].
  apply Z.eqb_eq in E. congruence.
Qed.

(** ** The further theorems at sample worlds *)

Lemma readyWorld_booted : booted readyWorld.
Proof. repeat split. Qed.

Lemma initialWorld_booted : booted initialWorld.
Proof. repeat split. Qed.

Lemma lastQuestionWorld_accepts : accepts (state lastQuestionWorld) lastQuestion.
Proof. split; [|split]; try reflexivity. eexists. split; reflexivity. Qed.

Lemma recordWorld_accepts : accepts (state recordWorld) lastQuestion.
Proof. split; [|split]; try reflexivity. eexists. split; reflexivity. Qed.

Lemma recordWorldWrong_accepts : accepts (state recordWorldWrong) lastQuestion.
Proof. split; [|split]; try reflexivity. eexists. split; reflexivity. Qed.

Lemma typedMarker_accepts : accepts (state typedMarker) firstQuestion.
Proof. split; [|split]; try reflexivity. eexists. split; reflexivity. Qed.

Lemma typedBlank_accepts : accepts (state typedBlank) firstQuestion.
Proof. split; [|split]; try reflexivity. eexists. split; reflexivity. Qed.

Lemma countdown_and_index_in_range_witness :
  booted readyWorld
  /\ 0 <= timeLeft (state (appRun toLowerCaseLatin insertionShuffle readyWorld
                                  firstSubmission)) <= TIMER_START.
Proof.
  split; [exact readyWorld_booted|].
  apply (countdown_and_index_in_range toLowerCaseLatin insertionShuffle
           (fun bits => insertionShuffle_perm bits _) readyWorld firstSubmission).
  exact readyWorld_booted.
Defined.

Lemma handlers_never_throw_witness :
  booted readyWorld
  /\ exists w2,
      onTimeout (appRun toLowerCaseLatin insertionShuffle readyWorld firstSubmission)
      = Normal w2.
Proof.
  split; [exact readyWorld_booted|].
  apply (handlers_never_throw toLowerCaseLatin insertionShuffle
           (fun bits => insertionShuffle_perm bits _) readyWorld firstSubmission).
  exact readyWorld_booted.
Defined.

Lemma last_correct_answer_not_in_high_score_witness :
  accepts (state recordWorld) lastQuestion
  /\ score (state (run toLowerCaseLatin recordWorld [Submit; Fire 0])) = 60 + (10 + 10)
  /\ highScore (state (run toLowerCaseLatin recordWorld [Submit; Fire 0]))
     = Z.max 0 60.
Proof.
  split; [exact recordWorld_accepts|].
  destruct (last_correct_answer_not_in_high_score toLowerCaseLatin recordWorld
              lastQuestion recordWorld_accepts eq_refl eq_refl eq_refl)
    as (_ & Hs & Hh & _).
  split; assumption.
Defined.

Lemma missed_last_question_counts_final_score_witness :
  accepts (state recordWorldWrong) lastQuestion
  /\ highScore (state (run toLowerCaseLatin recordWorldWrong [Submit; Fire 0]))
     = Z.max (highScore (state recordWorldWrong))
             (score (state (run toLowerCaseLatin recordWorldWrong [Submit; Fire 0]))).
Proof.
  split; [exact recordWorldWrong_accepts|].
  destruct (proj1 (missed_last_question_counts_final_score toLowerCaseLatin
                     recordWorldWrong lastQuestion recordWorldWrong_accepts
                     eq_refl eq_refl))
    as (_ & _ & Hh & _).
  - vm_compute. discriminate.
  - exact Hh.
Defined.

Lemma previous_high_score_line_after_record_witness :
  accepts (state recordWorld) lastQuestion
  /\ score (state recordWorld) > highScore (state recordWorld)
  /\ previousHighScoreShown (state (run toLowerCaseLatin recordWorld [Submit; Fire 0]))
     = - (10 + timeLeft (state recordWorld)).
Proof.
  split; [exact recordWorld_accepts|]. split; [reflexivity|].
  apply (proj1 (proj2 (previous_high_score_line_after_record toLowerCaseLatin
                         recordWorld lastQuestion recordWorld_accepts
                         eq_refl eq_refl eq_refl))).
  reflexivity.
Defined.

Lemma demoStart_accepts : accepts (state demoStart) firstQuestion.
Proof. split; [|split]; try reflexivity. eexists. split; reflexivity. Qed.

Lemma padding_does_not_change_submission_witness :
  accepts (state demoStart) firstQuestion
  /\ state (world_of (submitAnswer toLowerCaseLatin
                        (demoStart |> upd (setAnswerInput
                                             ([32; 9]%N ++ js "과자" ++ [12288]%N)))))
     = state (world_of (submitAnswer toLowerCaseLatin
                          (demoStart |> upd (setAnswerInput (js "과자"))))).
Proof.
  split; [exact demoStart_accepts|].
  apply (padding_does_not_change_submission toLowerCaseLatin demoStart firstQuestion
           (js "과자") [32; 9]%N [12288]%N demoStart_accepts).
  - apply Forall_cons; [reflexivity|]. apply Forall_cons; [reflexivity|]. apply Forall_nil.
  - apply Forall_cons; [reflexivity|]. apply Forall_nil.
Defined.

Lemma enabled_button_submission_is_taken_witness :
  submitDisabled (state typedWrong) = false
  /\ trim (answerInput (state typedWrong)) <> [].
Proof.
  split; [reflexivity|].
  apply (enabled_button_submission_is_taken toLowerCaseLatin typedWrong
           (slice0 MAX_QUESTIONS CHOSUNG_QUESTIONS) firstQuestion);
    reflexivity.
Defined.

Lemma blank_submission_is_a_wrong_answer_witness :
  accepts (state typedBlank) firstQuestion
  /\ trim (answerInput (state typedBlank)) = []
  /\ submitDisabled (state typedBlank) = true.
Proof.
  split; [exact typedBlank_accepts|]. split; [reflexivity|].
  apply (blank_submission_is_a_wrong_answer toLowerCaseLatin typedBlank firstQuestion).
  - exact typedBlank_accepts.
  - reflexivity.
  - vm_compute. discriminate.
Defined.

Lemma typed_marker_is_shown_as_timeout_witness :
  accepts (state typedMarker) firstQuestion
  /\ trim (answerInput (state typedMarker)) = js "시간 초과"
  /\ revealLine (state (world_of (submitAnswer toLowerCaseLatin typedMarker)))
     = revealLine (state (world_of (onTimeout typedMarker))).
Proof.
  split; [exact typedMarker_accepts|]. split; [reflexivity|].
  apply (proj1 (typed_marker_is_shown_as_timeout toLowerCaseLatin typedMarker
                  firstQuestion typedMarker_accepts
                  ltac:(vm_compute; discriminate))).
  reflexivity.
Defined.

Lemma feedback_freezes_play_witness :
  accepts (state typedWrong) firstQuestion
  /\ 0 < timeLeft (state typedWrong)
  /\ run toLowerCaseLatin (step toLowerCaseLatin typedWrong Submit)
         [Tick; Submit; TimeUp; SubmitBeforeEffect; Tick]
     = step toLowerCaseLatin typedWrong Submit.
Proof.
  split; [exact typedWrong_accepts|]. split; [reflexivity|].
  assert (H : Forall (fun e => e = Tick \/ e = TimeUp \/ e = Submit
                               \/ e = SubmitBeforeEffect)
                     [Tick; Submit; TimeUp; SubmitBeforeEffect; Tick])
    by (repeat (apply Forall_cons; [auto|]); apply Forall_nil).
  exact (proj1 (proj2 (proj1 (feedback_freezes_play toLowerCaseLatin typedWrong
                                firstQuestion
                                [Tick; Submit; TimeUp; SubmitBeforeEffect; Tick]
                                typedWrong_accepts)
                             eq_refl H))).
Defined.

Lemma idle_question_times_out_witness :
  accepts (state typedWrong) firstQuestion
  /\ timeLeft (state typedWrong) = Z.of_nat 10
  /\ timerExpired (state (run toLowerCaseLatin typedWrong (repeat Tick (10 + 3)))) = true.
Proof.
  split; [exact typedWrong_accepts|]. split; [reflexivity|].
  apply (idle_question_times_out toLowerCaseLatin typedWrong firstQuestion 10 3
           typedWrong_accepts eq_refl).
Defined.

Lemma medal_cells_are_surrogate_halves_witness :
  0 <= 1 < 3 /\ exists u, rankCell 1 = Some [u] /\ isSurrogate u = true.
Proof.
  split; [lia|].
  apply (proj1 medal_cells_are_surrogate_halves 1). lia.
Defined.

Lemma player_document_in_ranking_collection_witness :
  getPublicRankingPath (js "default-app-id") (js "uid-1")
  = getPublicRankingPath (js "default-app-id") (js "uid-1")
  /\ js "uid-1" = js "uid-1".
Proof.
  split; [reflexivity|].
  apply (proj2 (player_document_in_ranking_collection (js "default-app-id")
                  (js "uid-1") (js "uid-1"))).
  reflexivity.
Defined.

Lemma no_session_before_sign_in_witness :
  booted initialWorld
  /\ isAuthReady (state initialWorld) = false
  /\ phase (state (appRun toLowerCaseLatin insertionShuffle initialWorld firstSubmission))
     <> PhasePlaying.
Proof.
  split; [exact initialWorld_booted|]. split; [reflexivity|].
  apply (no_session_before_sign_in toLowerCaseLatin insertionShuffle initialWorld
           firstSubmission initialWorld_booted eq_refl).
Defined.

(** ** What play leaves alone *)

Section PlayFrame.

Variable toLowerCase : jsstring -> jsstring.

(** X21.  No event of the play session (typing, submitting, ticks,
    timeouts, callbacks, the end of the session included) changes the
    round, the sign-in cells or the ranking cells. *)
Theorem play_keeps_round_and_profile w e :
  currentQuestion (state (step toLowerCase w e)) = currentQuestion (state w)
  /\ db (state (step toLowerCase w e)) = db (state w)
  /\ userId (state (step toLowerCase w e)) = userId (state w)
  /\ isAuthReady (state (step toLowerCase w e)) = isAuthReady (state w)
  /\ rankingData (state (step toLowerCase w e)) = rankingData (state w)
  /\ myRank (state (step toLowerCase w e)) = myRank (state w).
Proof.
  destruct e as [v| | | |n|]; unfold step.
  - repeat split.
  - unfold submitAnswer, handleSubmitAnswer.
    destruct (currentQuestion (state w)) as [qs|] eqn:Hq; [|repeat split; exact Hq].
    destruct (negb _ || _); [repeat split; exact Hq|].
    destruct (array_get qs _) as [q|]; [|repeat split; exact Hq].
    destruct (str_eqb _ _); repeat split; exact Hq.
  - destruct (timerRunning (state w)); repeat split.
  - destruct (timerExpired (state w)); [|repeat split].
    unfold onTimeout, handleTimeOut.
    destruct (currentQuestion (state w)) as [qs|] eqn:Hq; [|repeat split; exact Hq].
    destruct (array_get qs _); repeat split; exact Hq.
  - unfold fire.
    destruct (nth_error (timeouts w) n) as [t|]; [|repeat split].
    destruct (callback t) as [r|r]; unfold runCallback, handleNextQuestion;
      (destruct (currentQuestionIndex r + 1 <? MAX_QUESTIONS); [repeat split|]);
      unfold handleGameEnd;
      (destruct (score r >? highScore r); [|repeat split]);
      destruct (storeAvailable r); repeat split.
  - cbv zeta. unfold handleSubmitAnswer, handleTimeOut.
    destruct (currentQuestion (state w)) as [qs|] eqn:Hq;
      [|destruct (timerExpired (state w)); repeat split; exact Hq].
    destruct (array_get qs _) as [q|];
      (destruct (negb _ || _); [|try destruct (str_eqb _ _)]);
      destruct (timerExpired (state w)); repeat split; exact Hq.
Qed.

End PlayFrame.

(** ** A submission on the render of the expiry *)

Section Expiry.

Variable toLowerCase : jsstring -> jsstring.

Lemma expired_when_accepting s q :
  accepts s q -> timeLeft s = 0 -> timerExpired s = true.
Proof.
  intros (Hp & Hf & _) Ht. unfold timerExpired. now rewrite Hp, Hf, Ht.
Qed.

(** What the two handlers leave when both run on the render of the
    expiry. *)
Lemma step_submit_on_expiry w q :
  accepts (state w) q ->
  timeLeft (state w) = 0 ->
  step toLowerCase w SubmitBeforeEffect
  = (if str_eqb (toLowerCase (trim (answerInput (state w))))
                (toLowerCase (trim (answer q)))
     then w |> upd (setAnswerInput (js ""))
            |> upd (modScore (fun prev => prev + 10))
            |> upd (setFeedback (mkFeedback (js "정답! (+10점)") (js "correct")))
            |> setTimeout (AfterCorrect (state w)) 500
     else w |> upd (setAnswerInput (js ""))
            |> upd (setLastWrongInput (trim (answerInput (state w))))
            |> upd (setCorrectAnswerText (answer q))
            |> upd (setShowAnswer true)
            |> upd (setFeedback (mkFeedback (js "오답!") (js "wrong")))
            |> setTimeout (AfterReveal (state w)) 2000)
    |> upd (setLastWrongInput (js "시간 초과"))
    |> upd (setCorrectAnswerText (answer q))
    |> upd (setShowAnswer true)
    |> upd (setFeedback (mkFeedback (js "시간 초과!") (js "wrong")))
    |> setTimeout (AfterReveal (state w)) 2000.
Proof.
  intros Hacc Ht. assert (He := expired_when_accepting _ _ Hacc Ht).
  assert (Hacc' := Hacc). destruct Hacc' as (_ & _ & round & Hq & Hg).
  unfold step. cbv zeta.
  rewrite He, (handleSubmitAnswer_accepted _ _ _ _ Hacc), (handleTimeOut_loaded _ _ _ _ Hq Hg).
  cbv zeta. rewrite Ht. destruct (str_eqb _ _); reflexivity.
Qed.


(** X1.  A submission taken on the render where the countdown has reached
    0, before the countdown effect of that render has run, is answered
    twice: by the submit handler and by the timeout, both closures of that
    render.  Two callbacks are pending for the one question, the handler's
    (500 ms ahead on a match, 2000 ms on a miss) and the timeout's (2000
    ms); the state shows the timeout (its feedback, its marker, the answer
    revealed), and on a match the ten points are in the score.  With time
    left on the countdown the same submission is answered once. *)
Theorem submission_on_expiry_is_answered_twice w q :
  accepts (state w) q ->
  (timeLeft (state w) = 0 ->
   let w' := step toLowerCase w SubmitBeforeEffect in
   let matched := str_eqb (toLowerCase (trim (answerInput (state w))))
                          (toLowerCase (trim (answer q))) in
   timeouts w'
   = timeouts w
     ++ [if matched then mkTimeout (AfterCorrect (state w)) 500
         else mkTimeout (AfterReveal (state w)) 2000;
         mkTimeout (AfterReveal (state w)) 2000]
   /\ feedback (state w') = mkFeedback (js "시간 초과!") (js "wrong")
   /\ lastWrongInput (state w') = js "시간 초과"
   /\ showAnswer (state w') = true
   /\ correctAnswerText (state w') = answer q
   /\ answerInput (state w') = []
   /\ score (state w') = score (state w) + (if matched then 10 else 0)
   /\ currentQuestionIndex (state w') = currentQuestionIndex (state w)
   /\ updates w' = updates w)
  /\ (0 < timeLeft (state w) ->
      step toLowerCase w SubmitBeforeEffect = step toLowerCase w Submit
      /\ length (timeouts (step toLowerCase w Submit)) = S (length (timeouts w))).
Proof.
  intros Hacc. split.
  - intros Ht. cbv zeta. rewrite (step_submit_on_expiry w q Hacc Ht).
    destruct (str_eqb _ _); cells; rewrite <- app_assoc;
      repeat split; try reflexivity; lia.
  - intros Hpos.
    assert (He : timerExpired (state w) = false).
    { unfold timerExpired.
      replace (timeLeft (state w) =? 0) with false by (symmetry; apply Z.eqb_neq; lia).
      now rewrite andb_false_r. }
    unfold step. cbv zeta. rewrite He. split; [reflexivity|].
    unfold submitAnswer. rewrite (handleSubmitAnswer_accepted _ _ _ _ Hacc). cbv zeta.
    destruct (str_eqb _ _); cells; rewrite length_app, Nat.add_comm; reflexivity.
Qed.

(** X22.  After a matching answer that was answered twice, before the
    fifth question: when the handler's callback has run, the next question
    is up (next index, full countdown running, input enabled, no feedback)
    while the reveal of the timeout is still on; the question area shows
    the canonical answer of the question just closed, under the timeout
    line, in place of the new clue.  The callback of the timeout is still
    pending; when it runs, the clue appears, the countdown is set back to
    10 and the index stays. *)
Theorem previous_answer_stays_revealed w q round q2 :
  accepts (state w) q ->
  timeLeft (state w) = 0 ->
  timeouts w = [] ->
  toLowerCase (trim (answerInput (state w))) = toLowerCase (trim (answer q)) ->
  currentQuestion (state w) = Some round ->
  array_get round (currentQuestionIndex (state w) + 1) = Some q2 ->
  currentQuestionIndex (state w) + 1 < MAX_QUESTIONS ->
  let w1 := run toLowerCase w [SubmitBeforeEffect; Fire 0] in
  let w2 := run toLowerCase w1 [Tick; Fire 0] in
  (accepts (state w1) q2
   /\ currentQuestionIndex (state w1) = currentQuestionIndex (state w) + 1
   /\ timeLeft (state w1) = TIMER_START
   /\ timerRunning (state w1) = true
   /\ isInputDisabled (state w1) = false
   /\ showAnswer (state w1) = true
   /\ correctAnswerText (state w1) = answer q
   /\ questionArea (state w1) q2 = answer q
   /\ revealLine (state w1) = js "❌ 시간 초과로 놓쳤습니다."
   /\ timeouts w1 = [mkTimeout (AfterReveal (state w)) 2000])
  /\ (accepts (state w2) q2
      /\ currentQuestionIndex (state w2) = currentQuestionIndex (state w) + 1
      /\ timeLeft (state w2) = TIMER_START
      /\ showAnswer (state w2) = false
      /\ questionArea (state w2) q2 = chosung q2
      /\ timeouts w2 = []
      /\ score (state w2) = score (state w) + 10).
Proof.
  intros Hacc Ht Hts Heq Hround Hq2 Hlt. cbv zeta.
  assert (Hlt' : (currentQuestionIndex (state w) + 1 <? MAX_QUESTIONS) = true)
    by (apply Z.ltb_lt; exact Hlt).
  apply str_eqb_eq in Heq.
  assert (E1 : run toLowerCase w [SubmitBeforeEffect; Fire 0]
               = mkWorld (state w |> setAnswerInput (js "")
                                  |> modScore (fun prev => prev + 10)
                                  |> setLastWrongInput (js "시간 초과")
                                  |> setCorrectAnswerText (answer q)
                                  |> setShowAnswer true
                                  |> setFeedback noFeedback
                                  |> setCurrentQuestionIndex (currentQuestionIndex (state w) + 1)
                                  |> setTimeLeft TIMER_START
                                  |> setAnswerInput (js ""))
                          [mkTimeout (AfterReveal (state w)) 2000] (updates w)).
  { cbn [run fold_left]. rewrite (step_submit_on_expiry w q Hacc Ht), Heq.
    cbn [step]. unfold fire. cells. rewrite Hts. cbn [app nth_error dropNth callback].
    unfold runCallback, handleNextQuestion. rewrite Hlt'. reflexivity. }
  rewrite E1. destruct Hacc as (Hp & Hf & _).
  split.
  - split.
    { split; [exact Hp|]. split; [reflexivity|]. exists round. split; assumption. }
    assert (Hline : forall s, lastWrongInput s = js "시간 초과" ->
                      revealLine s = js "❌ 시간 초과로 놓쳤습니다.").
    { intros s Hs. unfold revealLine. rewrite Hs.
      rewrite (proj2 (str_eqb_eq _ _) eq_refl). vm_compute. reflexivity. }
    split; [reflexivity|]. split; [reflexivity|].
    split; [unfold timerRunning; cells; rewrite Hp; reflexivity|].
    do 4 (split; [reflexivity|]).
    split; [apply Hline; reflexivity | reflexivity].
  - cbn [run fold_left step]. unfold timerRunning. cells. rewrite Hp.
    cbn [Phase_eqb andb Z.gtb Z.compare TIMER_START truthy text noFeedback negb].
    replace (negb (truthy (js ""))) with true by reflexivity.
    unfold fire. cells. cbn [nth_error dropNth callback].
    unfold runCallback, handleNextQuestion. rewrite Hlt'.
    split.
    { split; [exact Hp|]. split; [reflexivity|]. exists round. split; assumption. }
    unfold questionArea. cells. repeat split; reflexivity.
Qed.


(** X3.  One question can be scored twice.  After a matching answer that
    was answered twice, a matching answer to the next question, given
    before the callback of the timeout runs, scores its twenty points and
    its own callback moves on to the question after; the callback of the
    timeout then sets the index back by one.  The question already scored
    is up again, unanswered, with a full countdown, and its points stay in
    the score. *)
Theorem question_scored_twice w q round q2 v :
  accepts (state w) q ->
  timeLeft (state w) = 0 ->
  timeouts w = [] ->
  toLowerCase (trim (answerInput (state w))) = toLowerCase (trim (answer q)) ->
  currentQuestion (state w) = Some round ->
  array_get round (currentQuestionIndex (state w) + 1) = Some q2 ->
  currentQuestionIndex (state w) + 2 < MAX_QUESTIONS ->
  toLowerCase (trim v) = toLowerCase (trim (answer q2)) ->
  let w1 := run toLowerCase w [SubmitBeforeEffect; Fire 0; Input v; Submit; Fire 1] in
  let w2 := run toLowerCase w1 [Fire 0] in
  (currentQuestionIndex (state w1) = currentQuestionIndex (state w) + 2
   /\ score (state w1) = score (state w) + 10 + 20
   /\ timeouts w1 = [mkTimeout (AfterReveal (state w)) 2000])
  /\ (accepts (state w2) q2
      /\ currentQuestionIndex (state w2) = currentQuestionIndex (state w) + 1
      /\ score (state w2) = score (state w) + 10 + 20
      /\ timeLeft (state w2) = TIMER_START
      /\ answerInput (state w2) = []
      /\ showAnswer (state w2) = false
      /\ timeouts w2 = []
      /\ updates w2 = updates w).
Proof.
  intros Hacc Ht Hts Heq Hround Hq2 Hlt Hv. cbv zeta.
  assert (Hlt1 : (currentQuestionIndex (state w) + 1 <? MAX_QUESTIONS) = true)
    by (apply Z.ltb_lt; lia).
  assert (Hlt2 : (currentQuestionIndex (state w) + 1 + 1 <? MAX_QUESTIONS) = true)
    by (apply Z.ltb_lt; lia).
  apply str_eqb_eq in Heq. apply str_eqb_eq in Hv.
  assert (Hp : phase (state w) = PhasePlaying) by apply Hacc.
  set (s1 := state w |> setAnswerInput (js "")
                     |> modScore (fun prev => prev + 10)
                     |> setLastWrongInput (js "시간 초과")
                     |> setCorrectAnswerText (answer q)
                     |> setShowAnswer true
                     |> setFeedback noFeedback
                     |> setCurrentQuestionIndex (currentQuestionIndex (state w) + 1)
                     |> setTimeLeft TIMER_START
                     |> setAnswerInput v).
  assert (E1 : run toLowerCase w [SubmitBeforeEffect; Fire 0; Input v]
               = mkWorld s1 [mkTimeout (AfterReveal (state w)) 2000] (updates w)).
  { cbn [run fold_left]. rewrite (step_submit_on_expiry w q Hacc Ht), Heq.
    cbn [step]. unfold fire. cells. rewrite Hts. cbn [app nth_error dropNth callback].
    unfold runCallback, handleNextQuestion. rewrite Hlt1. reflexivity. }
  assert (Hacc1 : accepts s1 q2).
  { split; [exact Hp|]. split; [reflexivity|]. exists round. split; assumption. }
  assert (E2 : run toLowerCase w [SubmitBeforeEffect; Fire 0; Input v; Submit; Fire 1]
               = mkWorld (s1 |> setAnswerInput (js "")
                             |> modScore (fun prev => prev + (10 + 10))
                             |> setFeedback
                                  (mkFeedback
                                     (js "정답! (+" ++ string_of_number (10 + 10)
                                      ++ js "점)")
                                     (js "correct"))
                             |> setFeedback noFeedback
                             |> setCurrentQuestionIndex
                                  (currentQuestionIndex (state w) + 1 + 1)
                             |> setTimeLeft TIMER_START
                             |> setAnswerInput (js ""))
                         [mkTimeout (AfterReveal (state w)) 2000] (updates w)).
  { change [SubmitBeforeEffect; Fire 0; Input v; Submit; Fire 1]
      with ([SubmitBeforeEffect; Fire 0; Input v] ++ [Submit; Fire 1]).
    rewrite run_app, E1. cbn [run fold_left step]. unfold submitAnswer.
    cbn [state]. rewrite (handleSubmitAnswer_accepted _ _ _ _ Hacc1). cbv zeta.
    replace (answerInput s1) with v by reflexivity. rewrite Hv.
    unfold fire. cells. cbn [app nth_error dropNth callback].
    unfold runCallback, handleNextQuestion.
    replace (currentQuestionIndex s1) with (currentQuestionIndex (state w) + 1)
      by reflexivity.
    rewrite Hlt2. cells. rewrite Z.mul_1_r.
    replace (timeLeft s1) with 10 by reflexivity. reflexivity. }
  change (run toLowerCase ?x [Fire 0]) with (fire 0 x). rewrite E2.
  clear E1 E2. split.
  - subst s1. cells. split; [lia|]. split; [lia | reflexivity].
  - unfold fire. cells. cbn [nth_error dropNth callback].
    unfold runCallback, handleNextQuestion. rewrite Hlt1.
    split.
    { split; [exact Hp|]. split; [reflexivity|]. exists round. split; assumption. }
    repeat split; reflexivity.
Qed.

End Expiry.

(** X6.  A pending callback, when it runs, advances from the render it was
    created in, not from the state it finds.  It clears the feedback (and,
    after a miss, the reveal), keeps the score and the round and leaves the
    other callbacks pending.  If its own index is below 4 it sets the index
    to its own index plus one, with a full countdown and an empty input,
    wherever the component is by then; if its own index is 4 it ends the
    session and leaves index, countdown and input as it finds them. *)
Theorem callback_advances_from_its_own_render w n t :
  nth_error (timeouts w) n = Some t ->
  timeouts (fire n w) = dropNth n (timeouts w)
  /\ feedback (state (fire n w)) = noFeedback
  /\ score (state (fire n w)) = score (state w)
  /\ currentQuestion (state (fire n w)) = currentQuestion (state w)
  /\ match callback t with
     | AfterReveal _ =>
       showAnswer (state (fire n w)) = false
       /\ correctAnswerText (state (fire n w)) = []
       /\ lastWrongInput (state (fire n w)) = []
     | AfterCorrect _ =>
       showAnswer (state (fire n w)) = showAnswer (state w)
       /\ correctAnswerText (state (fire n w)) = correctAnswerText (state w)
       /\ lastWrongInput (state (fire n w)) = lastWrongInput (state w)
     end
  /\ (currentQuestionIndex (closure (callback t)) + 1 < MAX_QUESTIONS ->
      currentQuestionIndex (state (fire n w))
      = currentQuestionIndex (closure (callback t)) + 1
      /\ timeLeft (state (fire n w)) = TIMER_START
      /\ answerInput (state (fire n w)) = []
      /\ phase (state (fire n w)) = phase (state w)
      /\ highScore (state (fire n w)) = highScore (state w)
      /\ updates (fire n w) = updates w)
  /\ (MAX_QUESTIONS <= currentQuestionIndex (closure (callback t)) + 1 ->
      phase (state (fire n w)) = PhaseResult
      /\ currentQuestionIndex (state (fire n w)) = currentQuestionIndex (state w)
      /\ timeLeft (state (fire n w)) = timeLeft (state w)
      /\ answerInput (state (fire n w)) = answerInput (state w)).
Proof.
  intros Hn. unfold fire. rewrite Hn.
  destruct (callback t) as [r|r]; unfold runCallback, handleNextQuestion; cbn [closure];
    (destruct (currentQuestionIndex r + 1 <? MAX_QUESTIONS) eqn:E;
     [apply Z.ltb_lt in E
     |apply Z.ltb_ge in E; unfold handleGameEnd;
      (destruct (score r >? highScore r); [destruct (storeAvailable r)|])]);
    cells; repeat split; try reflexivity; intros; lia.
Qed.

(** ** The profile load during a session *)

Section ProfileLoad.

Variable toLowerCase : jsstring -> jsstring.
Variable sortRandom : list bool -> list Question -> list Question.


End ProfileLoad.

(** A session of five questions that ends with 110 points: the first
    question is answered twice, and the second is scored twice. *)
Example session_can_end_above_hundred :
  let w := appRun toLowerCaseLatin insertionShuffle readyWorld doubleCountedGame in
  (phase (state w), score (state w), highScore (state w), length (timeouts w), updates w)
  = (PhaseResult, 110, 90, 0%nat, [mkDocUpdate (js "uid-1") 90]).
Proof. vm_compute. reflexivity. Qed.

Lemma typedCorrectAtZero_accepts : accepts (state typedCorrectAtZero) firstQuestion.
Proof. split; [|split]; try reflexivity. eexists. split; reflexivity. Qed.

Lemma typedCorrectAtZero_matches :
  toLowerCaseLatin (trim (answerInput (state typedCorrectAtZero)))
  = toLowerCaseLatin (trim (answer firstQuestion)).
Proof. vm_compute. reflexivity. Qed.

Lemma submission_on_expiry_is_answered_twice_witness :
  accepts (state typedCorrectAtZero) firstQuestion
  /\ timeLeft (state typedCorrectAtZero) = 0
  /\ length (timeouts (step toLowerCaseLatin typedCorrectAtZero SubmitBeforeEffect)) = 2%nat.
Proof.
  split; [exact typedCorrectAtZero_accepts|]. split; [reflexivity|].
  rewrite (proj1 (proj1 (submission_on_expiry_is_answered_twice toLowerCaseLatin
                           typedCorrectAtZero firstQuestion typedCorrectAtZero_accepts)
                        eq_refl)).
  reflexivity.
Defined.

Lemma previous_answer_stays_revealed_witness :
  accepts (state typedCorrectAtZero) firstQuestion
  /\ questionArea (state (run toLowerCaseLatin typedCorrectAtZero [SubmitBeforeEffect; Fire 0]))
                  secondQuestion
     = js "안녕하세요".
Proof.
  split; [exact typedCorrectAtZero_accepts|].
  destruct (proj1 (previous_answer_stays_revealed toLowerCaseLatin typedCorrectAtZero
                     firstQuestion (slice0 MAX_QUESTIONS CHOSUNG_QUESTIONS) secondQuestion
                     typedCorrectAtZero_accepts eq_refl eq_refl
                     typedCorrectAtZero_matches eq_refl eq_refl eq_refl))
    as (_ & _ & _ & _ & _ & _ & _ & H & _).
  exact H.
Defined.

Lemma question_scored_twice_witness :
  accepts (state typedCorrectAtZero) firstQuestion
  /\ toLowerCaseLatin (trim (js "과자")) = toLowerCaseLatin (trim (answer secondQuestion))
  /\ currentQuestionIndex
       (state (run toLowerCaseLatin
                   (run toLowerCaseLatin typedCorrectAtZero
                        [SubmitBeforeEffect; Fire 0; Input (js "과자"); Submit; Fire 1])
                   [Fire 0]))
     = currentQuestionIndex (state typedCorrectAtZero) + 1
  /\ score
       (state (run toLowerCaseLatin
                   (run toLowerCaseLatin typedCorrectAtZero
                        [SubmitBeforeEffect; Fire 0; Input (js "과자"); Submit; Fire 1])
                   [Fire 0]))
     = score (state typedCorrectAtZero) + 10 + 20.
Proof.
  assert (Hv : toLowerCaseLatin (trim (js "과자"))
               = toLowerCaseLatin (trim (answer secondQuestion)))
    by (vm_compute; reflexivity).
  split; [exact typedCorrectAtZero_accepts|]. split; [exact Hv|].
  destruct (proj2 (question_scored_twice toLowerCaseLatin typedCorrectAtZero
                     firstQuestion (slice0 MAX_QUESTIONS CHOSUNG_QUESTIONS) secondQuestion
                     (js "과자")
                     typedCorrectAtZero_accepts eq_refl eq_refl
                     typedCorrectAtZero_matches eq_refl eq_refl eq_refl Hv))
    as (_ & Hi & Hs & _).
  split; assumption.
Defined.



Lemma callback_advances_from_its_own_render_witness :
  nth_error (timeouts (step toLowerCaseLatin typedWrong Submit)) 0
  = Some (mkTimeout (AfterReveal (state typedWrong)) 2000)
  /\ feedback (state (fire 0 (step toLowerCaseLatin typedWrong Submit))) = noFeedback
  /\ score (state (fire 0 (step toLowerCaseLatin typedWrong Submit)))
     = score (state (step toLowerCaseLatin typedWrong Submit)).
Proof.
  assert (H : nth_error (timeouts (step toLowerCaseLatin typedWrong Submit)) 0
              = Some (mkTimeout (AfterReveal (state typedWrong)) 2000))
    by (vm_compute; reflexivity).
  split; [exact H|].
  destruct (callback_advances_from_its_own_render
              (step toLowerCaseLatin typedWrong Submit) 0
              (mkTimeout (AfterReveal (state typedWrong)) 2000) H)
    as (_ & Hf & Hs & _).
  split; assumption.
Defined.
